(** * rating-csv: flattening ROCR credit-rating XML into CSV rows

    A shallow embedding of [rating_csv.py] and the properties of its
    tree flattener, as-of filter, record extractor and CSV export driver.

    Conventions of the embedding:
    - a Python [dict] from field name to text is a [gmap string (option string)]:
      a key can be absent, present with [None] (an element without text) or
      present with a string;  dictionaries whose order is observable
      ([by_type], the field dictionaries) are association lists;
    - an uncaught Python exception is the [Raise] outcome of a [result];
    - the XML tree is an inductive [Element] with its tag, text and children;
      comments and processing instructions are not part of it: the parser
      of [xml.etree] drops them, while [lxml] keeps them as nodes whose tag
      is not a string, on which the flattener raises a [TypeError] at
      [e.tag[40:]].  What is stated of the records of a flattening is
      therefore stated for a flattening that returns;
    - what the program takes from its libraries is modelled after their
      documentation: [find] and [findtext] of [ElementTree], the calendar
      form of [date.fromisoformat], [csv.DictWriter] with its defaults;
    - the archive is the list of its entries, each with what [etree.parse]
      makes of it, and the CSV file is the list of the rows written. *)

From Equations Require Import Equations.
From stdpp Require Import gmap strings list.
From Stdlib Require Import ZArith Ascii.

(** ** Exceptions and fallible computations *)

(** The exception classes that the program can meet.  [ParseError] stands for
    what [etree.parse] raises on a document that is not well-formed
    ([xml.etree.ElementTree.ParseError], [lxml.etree.XMLSyntaxError]). *)
Inductive exn : Type :=
  | KeyError
  | TypeError
  | ValueError
  | UnicodeEncodeError
  | ParseError.

Inductive result (A : Type) : Type :=
  | Ok (a : A)
  | Raise (e : exn).
Arguments Ok {A} a.
Arguments Raise {A} e.

#[global] Instance exn_eq_dec : EqDecision exn.
Proof. solve_decision. Defined.

(** Sequencing: an exception raised by [m] ends the computation. *)
Definition bind {A B : Type} (m : result A) (k : A -> result B) : result B :=
  match m with
  | Ok a => k a
  | Raise e => Raise e
  end.

Notation "'let*' x ':=' m 'in' k" := (bind m (fun x => k))
  (at level 10, x name, m at level 100, k at level 200).

(** ** The XML tree *)

#[local] Unset Elimination Schemes.
Inductive Element : Type :=
  | Elem (tag : string) (text : option string) (children : list Element).
#[local] Set Elimination Schemes.

Definition tag (e : Element) : string := let 'Elem t _ _ := e in t.
Definition text (e : Element) : option string := let 'Elem _ x _ := e in x.
Definition children (e : Element) : list Element := let 'Elem _ _ cs := e in cs.

(** Number of nodes of a tree and of a list of trees. *)
Fixpoint element_size (e : Element) : nat :=
  match e with
  | Elem _ _ cs =>
      S ((fix sizes (l : list Element) : nat :=
            match l with
            | [] => 0
            | c :: l' => element_size c + sizes l'
            end) cs)
  end.

Definition stack_size (l : list Element) : nat :=
  foldr (fun e n => element_size e + n) 0 l.

(** The strict descendants of a node in document order, which is the order
    in which [Element.iter] yields them. *)
Fixpoint descendants (e : Element) : list Element :=
  match e with
  | Elem _ _ cs =>
      (fix forest (l : list Element) : list Element :=
         match l with
         | [] => []
         | c :: l' => c :: descendants c ++ forest l'
         end) cs
  end.

Definition descendants_list (l : list Element) : list Element :=
  foldr (fun c acc => c :: descendants c ++ acc) [] l.

(** [root.find(".//" + name)]: the first strict descendant with that tag. *)
Definition find (root : Element) (name : string) : option Element :=
  List.find (fun e => bool_decide (tag e = name)) (descendants root).

(** [root.findtext(".//" + name)]: [None] when no element matches, and the
    empty string when the element that matches has no text. *)
Definition findtext (root : Element) (name : string) : option string :=
  match find root name with
  | Some e => Some (default "" (text e))
  | None => None
  end.

(** ** Module constants *)

Definition RATINGS_NAMESPACE : string :=
  "{http://xbrl.sec.gov/ratings/2015-03-31}".

Definition SEQUENCE_TAGS : gmap string string :=
  <[RATINGS_NAMESPACE +:+ "OD" := RATINGS_NAMESPACE +:+ "ORD"]>
  (<[RATINGS_NAMESPACE +:+ "ISD" := RATINGS_NAMESPACE +:+ "IND"]>
  (<[RATINGS_NAMESPACE +:+ "IND" := RATINGS_NAMESPACE +:+ "IRD"]> ∅)).

Definition AGENCY_FIELDS : list (string * string) :=
  [ ("RAN", "rating_agency_name");
    ("FCD", "file_creation_date") ].

Definition OBLIGOR_FIELDS : list (string * string) :=
  [ ("OSC", "obligor_subclass");
    ("OIG", "obligor_industry_group");
    ("OBNAME", "obligor_name");
    ("LEI", "legal_entity_identifier");
    ("CIK", "central_index_key");
    ("OI", "obligor_identifier");
    ("OIS", "obligor_identifier_schema");
    ("OIOS", "obligor_identifier_other_schema") ].

Definition ISSUER_FIELDS : list (string * string) :=
  [ ("SSC", "sec_subcategory");
    ("IG", "industry_group");
    ("ISSNAME", "issuer_name");
    ("ISI", "issuer_identifier");
    ("ISIS", "issuer_identifier_scheme");
    ("ISIOS", "issuer_identifier_other_scheme");
    ("OBT", "object_type");
    ("INSTNAME", "instrument_name");
    ("CUSIP", "cusip");
    ("INI", "instrument_identifier");
    ("INIS", "instrument_identifier_scheme");
    ("INIOS", "instrument_identifier_other_scheme");
    ("IRTD", "interest_rate_type_description");
    ("CR", "coupon_rate");
    ("MD", "maturity_date");
    ("PV", "par_value");
    ("ISUD", "issuance_date");
    ("RODC", "other_debt_category") ].

Definition RATING_FIELDS : list (string * string) :=
  [ ("IP", "issuer_paid");
    ("R", "rating");
    ("RAD", "rating_action_date");
    ("RAC", "rating_action_classification");
    ("WST", "watch_status");
    ("ROL", "rating_outlook");
    ("OAN", "other_announcement");
    ("RT", "rating_type");
    ("RST", "rating_subtype");
    ("RTT", "rating_type_term") ].

(** ** Ordered dictionaries *)

Section OrderedDict.
Context {K V : Type} `{EqDecision K}.

(** [d.get(key)] *)
Fixpoint dict_get (d : list (K * V)) (key : K) : option V :=
  match d with
  | [] => None
  | (k, v) :: d' => if decide (k = key) then Some v else dict_get d' key
  end.

(** [d[key] = value]: an existing key keeps its position, a new key goes
    to the end. *)
Fixpoint dict_set (d : list (K * V)) (key : K) (value : V) : list (K * V) :=
  match d with
  | [] => [(key, value)]
  | (k, v) :: d' =>
      if decide (k = key) then (k, value) :: d'
      else (k, v) :: dict_set d' key value
  end.

(** [d1 | d2] *)
Definition dict_or (d1 d2 : list (K * V)) : list (K * V) :=
  foldl (fun d kv => dict_set d kv.1 kv.2) d1 d2.

(** [list(d)] *)
Definition dict_keys (d : list (K * V)) : list K := d.*1.

(** [d.values()] *)
Definition dict_values (d : list (K * V)) : list V := d.*2.
End OrderedDict.

(** ** Dates *)

Record date : Type := mkdate { year : Z; month : Z; day : Z }.

#[global] Instance date_eq_dec : EqDecision date.
Proof. solve_decision. Defined.

(** [a < b] on [datetime.date]: year, then month, then day. *)
Definition date_ltb (a b : date) : bool :=
  (year a <? year b)%Z
  || ((year a =? year b)%Z
      && ((month a <? month b)%Z
          || ((month a =? month b)%Z && (day a <? day b)%Z))).

Definition digit (c : ascii) : option Z :=
  let n := Z.of_N (N_of_ascii c) in
  if ((48 <=? n) && (n <=? 57))%Z then Some (n - 48)%Z else None.

Definition is_leap (y : Z) : bool :=
  ((y mod 4 =? 0) && (negb (y mod 100 =? 0) || (y mod 400 =? 0)))%Z.

Definition days_in_month (y m : Z) : Z :=
  if (m =? 2)%Z then (if is_leap y then 29 else 28)%Z
  else if ((m =? 4) || (m =? 6) || (m =? 9) || (m =? 11))%Z then 30%Z
  else 31%Z.

(** [date.fromisoformat] on the calendar form [YYYY-MM-DD], the form that
    every Python version able to run the program accepts and the one its
    command line documents.  Anything else is a [ValueError] here, as in
    Python before 3.11; later versions read further ISO 8601 forms.  The
    statements on the filter take a date that is read, or a result that is
    returned, as a hypothesis, and none rests on a text being refused. *)
Definition date_fromisoformat (s : string) : result date :=
  match String.list_ascii_of_string s with
  | [y1; y2; y3; y4; s1; m1; m2; s2; d1; d2] =>
      match digit y1, digit y2, digit y3, digit y4,
            digit m1, digit m2, digit d1, digit d2 with
      | Some a, Some b, Some c, Some d, Some e, Some f, Some g, Some h =>
          let y := (1000 * a + 100 * b + 10 * c + d)%Z in
          let m := (10 * e + f)%Z in
          let dd := (10 * g + h)%Z in
          if bool_decide (s1 = "-"%char) && bool_decide (s2 = "-"%char)
             && (1 <=? y)%Z && (1 <=? m)%Z && (m <=? 12)%Z
             && (1 <=? dd)%Z && (dd <=? days_in_month y m)%Z
          then Ok (mkdate y m dd)
          else Raise ValueError
      | _, _, _, _, _, _, _, _ => Raise ValueError
      end
  | _ => Raise ValueError
  end.

(** ** Records *)

(** A record maps a short tag to the text of a leaf, [None] for a leaf
    without text. *)
Abbreviation record := (gmap string (option string)) (only parsing).

(** [record.get(name)]: [None] for an absent key as for a null value. *)
Definition record_get (r : record) (name : string) : option string :=
  default None (r !! name).

(** [record.update(this)]: the entries of [this] are written into [record]. *)
Definition record_update (r this : record) : record := this ∪ r.

(** [date.fromisoformat(record["RAD"])]: a [KeyError] for an absent key, a
    [TypeError] for a null value, a [ValueError] for a malformed date. *)
Definition record_rad (r : record) : result date :=
  match r !! "RAD" with
  | None => Raise KeyError
  | Some None => Raise TypeError
  | Some (Some s) => date_fromisoformat s
  end.

(** [tag[40:]] *)
Definition slice_from (n : nat) (s : string) : string :=
  String.substring n (String.length s - n) s.

(** A transformation receives the records of an element and the element. *)
Definition Transformation : Type :=
  list record -> Element -> result (list record).

(** ** The as-of filter *)

Definition rating_detail_tags : list string :=
  [RATINGS_NAMESPACE +:+ "OD"; RATINGS_NAMESPACE +:+ "IND"].

Definition rating_key (r : record)
  : option string * option string * option string :=
  (record_get r "RT", record_get r "RST", record_get r "RTT").

(** The body of [for record in records] in [filter_records], with
    [by_type] threaded through the iterations. *)
Fixpoint filter_loop (asof : date)
    (by_type : list ((option string * option string * option string) * record))
    (records : list record)
  : result (list ((option string * option string * option string) * record)) :=
  match records with
  | [] => Ok by_type
  | r :: records' =>
      let* rad := record_rad r in
      if date_ltb asof rad then filter_loop asof by_type records'
      else
        let key := rating_key r in
        let* newer :=
          match dict_get by_type key with
          | None => Ok true
          | Some old => let* old_rad := record_rad old in Ok (date_ltb old_rad rad)
          end in
        if newer : bool then filter_loop asof (dict_set by_type key r) records'
        else filter_loop asof by_type records'
  end.

Definition filter_records (asof : date) : Transformation :=
  fun records element =>
    if bool_decide (tag element ∈ rating_detail_tags) then
      let* by_type := filter_loop asof [] records in
      Ok (dict_values by_type)
    else Ok records.

Definition filter_asof (asof : date) : Transformation := filter_records asof.

(** ** The tree flattener *)

(** [stack.pop()] on a non-empty list: the list without its last element,
    and that element. *)
Definition pop {A : Type} (l : list A) : option (list A * A) :=
  match reverse l with
  | [] => None
  | x :: r => Some (reverse r, x)
  end.

(** Termination of the work list: a pop takes a tree off the stack, and the
    children pushed in its place are smaller than the tree. *)
Lemma pop_Some {A : Type} (l l' : list A) (x : A) :
  pop l = Some (l', x) -> l = l' ++ [x].
Proof.
  unfold pop. destruct (reverse l) as [|y r] eqn:E; [discriminate|].
  intros [= <- <-]. apply (f_equal reverse) in E.
  rewrite reverse_involutive in E. by rewrite E, reverse_cons.
Qed.

Lemma stack_size_app (l1 l2 : list Element) :
  stack_size (l1 ++ l2) = stack_size l1 + stack_size l2.
Proof. induction l1 as [|a l1 IH]; simpl; [done|]. rewrite IH. lia. Qed.

Lemma stack_size_reverse (l : list Element) :
  stack_size (reverse l) = stack_size l.
Proof.
  induction l as [|a l IH]; [done|].
  rewrite reverse_cons, stack_size_app, IH. simpl. lia.
Qed.

Lemma element_size_children (e : Element) :
  element_size e = S (stack_size (children e)).
Proof. by destruct e. Qed.

(** What [element_to_records] does once its work list is empty. *)
Definition finish (transformation : option Transformation) (element : Element)
    (st : gmap string (option string) * list (gmap string (option string)))
  : result (list record) :=
  let records :=
    match SEQUENCE_TAGS !! tag element with
    | None => [st.1]
    | Some _ => (fun r => record_update r st.1) <$> st.2
    end in
  match transformation with
  | None => Ok records
  | Some f => f records element
  end.

Definition inspect {A : Type} (x : A) : { y : A | x = y } := exist _ x eq_refl.

(** The [while stack] loop.  The stack is the Python list, its top at the
    end; [sequence_tag] is [None] when the element is not a sequence
    container, and no tag equals it then.  The recursive call of
    [element_to_records] on an item is the loop on the item's own children
    followed by [finish]. *)
Equations? loop (transformation : option Transformation)
    (sequence_tag : option string) (stack : list Element)
    (this : gmap string (option string))
    (records : list (gmap string (option string)))
  : result (gmap string (option string) * list (gmap string (option string)))
  by wf (stack_size stack) lt :=
loop transformation sequence_tag stack this records with inspect (pop stack) := {
  | exist _ None _ := Ok (this, records)
  | exist _ (Some (stack', e)) Hpop :=
      if bool_decide (Some (tag e) = sequence_tag) then
        match bind (loop transformation (SEQUENCE_TAGS !! tag e)
                      (reverse (children e)) ∅ [])
                   (finish transformation e) with
        | Ok subs => loop transformation sequence_tag stack' this (records ++ subs)
        | Raise x => Raise x
        end
      else if bool_decide (length (children e) ≠ 0) then
        loop transformation sequence_tag (stack' ++ reverse (children e))
          this records
      else
        loop transformation sequence_tag stack'
          (<[slice_from 40 (tag e) := text e]> this) records }.
Proof.
  all: apply pop_Some in Hpop; subst stack;
    rewrite ?stack_size_app, ?stack_size_reverse; simpl;
    rewrite (element_size_children e); lia.
Qed.

Definition element_to_records (element : Element)
    (transformation : option Transformation) : result (list record) :=
  bind (loop transformation (SEQUENCE_TAGS !! tag element)
          (reverse (children element)) ∅ [])
       (finish transformation element).

(** ** The record extractor *)

Definition xml_to_records (root : Element) (rating_type : string)
    (asof : option date) : result (list record) :=
  let* element :=
    if bool_decide (rating_type = "obligor") then
      Ok (find root (RATINGS_NAMESPACE +:+ "OD"))
    else if bool_decide (rating_type = "issuer") then
      Ok (find root (RATINGS_NAMESPACE +:+ "ISD"))
    else Raise ValueError in
  match element with
  | Some element =>
      let transformation := filter_asof <$> asof in
      let* records := element_to_records element transformation in
      let ran := findtext root (RATINGS_NAMESPACE +:+ "RAN") in
      let fcd := findtext root (RATINGS_NAMESPACE +:+ "FCD") in
      Ok ((fun r : record => <["FCD" := fcd]> (<["RAN" := ran]> r)) <$> records)
  | None => Ok []
  end.

(** ** The CSV export driver *)

(** [name.endswith(suffix)] *)
Definition endswith (name suffix : string) : bool :=
  let n := String.length name in
  let m := String.length suffix in
  bool_decide (m ≤ n) && String.eqb (String.substring (n - m) m name) suffix.

(** An archive entry: its name, and what opening it and [etree.parse]
    make of its bytes, the root of the parsed tree or an exception. *)
Record ZipEntry : Type := mkZipEntry {
  filename : string;
  parsed : result Element
}.

(** What [csv.DictWriter] (with its default [restval] and [extrasaction])
    and the [csv] writer do with one record: a [ValueError] for a key
    outside [fieldnames], else the cells in the order of [fieldnames], an
    absent key and a null value both rendered as the empty string. *)
Definition cell (v : option (option string)) : string :=
  match v with
  | Some (Some s) => s
  | _ => ""
  end.

Definition dict_to_list (fieldnames : list string) (rowdict : record)
  : result (list string) :=
  if bool_decide (dom rowdict ⊆ list_to_set fieldnames) then
    Ok ((fun key => cell (rowdict !! key)) <$> fieldnames)
  else Raise ValueError.

(** [list(AGENCY_FIELDS | ... | RATING_FIELDS)] for a rating type. *)
Definition fieldnames_of (rating_type : string) : result (list string) :=
  if bool_decide (rating_type = "obligor") then
    Ok (dict_keys (dict_or (dict_or AGENCY_FIELDS OBLIGOR_FIELDS) RATING_FIELDS))
  else if bool_decide (rating_type = "issuer") then
    Ok (dict_keys (dict_or (dict_or AGENCY_FIELDS ISSUER_FIELDS) RATING_FIELDS))
  else Raise ValueError.

Section CsvExport.
(** Whether the text encoding of the output file, which [open] takes from
    the locale, can encode the line of a row.  Writing a row that it
    cannot encode raises [UnicodeEncodeError]. *)
Variable encodable : list string -> bool.

(** The output file is the list of the rows written so far. *)
Definition writerow (csv_file : list (list string)) (row : list string)
  : list (list string) * result unit :=
  if encodable row then (csv_file ++ [row], Ok ())
  else (csv_file, Raise UnicodeEncodeError).

(** [writer.writerows(records)]: the records are converted and written one
    by one, so the rows before a failing record stay written. *)
Fixpoint writerows (fieldnames : list string) (csv_file : list (list string))
    (records : list record) : list (list string) * result unit :=
  match records with
  | [] => (csv_file, Ok ())
  | rowdict :: records' =>
      match dict_to_list fieldnames rowdict with
      | Raise e => (csv_file, Raise e)
      | Ok row =>
          match writerow csv_file row with
          | (csv_file', Ok _) => writerows fieldnames csv_file' records'
          | (csv_file', Raise e) => (csv_file', Raise e)
          end
      end
  end.

(** The body of the [try] statement for one entry. *)
Definition process_entry (fieldnames : list string) (rating_type : string)
    (asof : option date) (csv_file : list (list string)) (entry : ZipEntry)
  : list (list string) * result unit :=
  match parsed entry with
  | Raise e => (csv_file, Raise e)
  | Ok tree =>
      match xml_to_records tree rating_type asof with
      | Raise e => (csv_file, Raise e)
      | Ok records => writerows fieldnames csv_file records
      end
  end.

(** [for filename in zip_file.namelist()], with [except UnicodeEncodeError:
    pass] around the body. *)
Fixpoint process_entries (fieldnames : list string) (rating_type : string)
    (asof : option date) (csv_file : list (list string))
    (zip_file : list ZipEntry) : list (list string) * result unit :=
  match zip_file with
  | [] => (csv_file, Ok ())
  | entry :: zip_file' =>
      if negb (endswith (filename entry) ".xml") then
        process_entries fieldnames rating_type asof csv_file zip_file'
      else
        match process_entry fieldnames rating_type asof csv_file entry with
        | (csv_file', Ok _) | (csv_file', Raise UnicodeEncodeError) =>
            process_entries fieldnames rating_type asof csv_file' zip_file'
        | (csv_file', Raise e) => (csv_file', Raise e)
        end
  end.

(** The output is [None] when the CSV file is never opened, else its
    rows; the second component tells whether the run ended normally. *)
Definition ratings_to_csv (zip_file : list ZipEntry) (rating_type : string)
    (asof : option date) : option (list (list string)) * result unit :=
  match fieldnames_of rating_type with
  | Raise e => (None, Raise e)
  | Ok fieldnames =>
      match writerow [] fieldnames with
      | (csv_file, Raise e) => (Some csv_file, Raise e)
      | (csv_file, Ok _) =>
          let out := process_entries fieldnames rating_type asof csv_file zip_file in
          (Some out.1, out.2)
      end
  end.
End CsvExport.

(** ** The traversal in document order *)

(** The nodes that the loop of a container handles itself, in document
    order: the walk stops at an item and at a leaf, and goes through any
    other node to its children. *)
Fixpoint visited (sequence_tag : option string) (e : Element) : list Element :=
  match e with
  | Elem tg _ cs =>
      if bool_decide (Some tg = sequence_tag) then [e]
      else if bool_decide (length cs ≠ 0) then
        (fix forest (l : list Element) : list Element :=
           match l with
           | [] => []
           | c :: l' => visited sequence_tag c ++ forest l'
           end) cs
      else [e]
  end.

Definition visited_list (sequence_tag : option string) (l : list Element)
  : list Element :=
  foldr (fun c acc => visited sequence_tag c ++ acc) [] l.

Definition is_item (sequence_tag : option string) (e : Element) : bool :=
  bool_decide (Some (tag e) = sequence_tag).

(** The items of a container, and the leaves outside its items. *)
Definition items (sequence_tag : option string) (l : list Element)
  : list Element :=
  List.filter (is_item sequence_tag) (visited_list sequence_tag l).

Definition context_leaves (sequence_tag : option string) (l : list Element)
  : list Element :=
  List.filter (fun e => negb (is_item sequence_tag e)) (visited_list sequence_tag l).

(** The fields of the leaves, a later leaf overwriting an earlier one. *)
Definition leaf_fields (this : gmap string (option string)) (leaves : list Element)
  : gmap string (option string) :=
  foldl (fun this e => <[slice_from 40 (tag e) := text e]> this) this leaves.

Definition shared_context (element : Element) : gmap string (option string) :=
  leaf_fields ∅ (context_leaves (SEQUENCE_TAGS !! tag element) (children element)).

(** What the loop does with one visited node, and with a list of them. *)
Definition handle (transformation : option Transformation)
    (sequence_tag : option string)
    (st : gmap string (option string) * list (gmap string (option string)))
    (e : Element)
  : result (gmap string (option string) * list (gmap string (option string))) :=
  if is_item sequence_tag e then
    let* subs := element_to_records e transformation in
    Ok (st.1, st.2 ++ subs)
  else Ok (<[slice_from 40 (tag e) := text e]> st.1, st.2).

Fixpoint handle_all (transformation : option Transformation)
    (sequence_tag : option string)
    (st : gmap string (option string) * list (gmap string (option string)))
    (l : list Element)
  : result (gmap string (option string) * list (gmap string (option string))) :=
  match l with
  | [] => Ok st
  | e :: l' =>
      let* st' := handle transformation sequence_tag st e in
      handle_all transformation sequence_tag st' l'
  end.

(** The sub-records of a list of items, item after item. *)
Fixpoint sub_records (transformation : option Transformation)
    (its : list Element) : result (list record) :=
  match its with
  | [] => Ok []
  | e :: its' =>
      let* subs := element_to_records e transformation in
      let* rest := sub_records transformation its' in
      Ok (subs ++ rest)
  end.


(** ** What the as-of filter retains *)

(** [r] is, among the records of [seen] with its key and a date not after
    [asof], the first one in the order of [seen] that has the latest date:
    the records before it are strictly older, the records after it are not
    more recent. *)
Definition first_latest (asof : date) (seen : list record) (r : record) : Prop :=
  exists d pre post,
    record_rad r = Ok d /\ date_ltb asof d = false /\ seen = pre ++ r :: post /\
    (forall r' d', r' ∈ pre -> rating_key r' = rating_key r ->
       record_rad r' = Ok d' -> date_ltb asof d' = false -> date_ltb d' d = true) /\
    (forall r' d', r' ∈ post -> rating_key r' = rating_key r ->
       record_rad r' = Ok d' -> date_ltb asof d' = false -> date_ltb d d' = false).

(** The state of [by_type] once the loop has gone through [seen]. *)
Definition by_type_inv (asof : date)
    (by_type : list ((option string * option string * option string) * record))
    (seen : list record) : Prop :=
  NoDup (dict_keys by_type) /\
  (forall k r, dict_get by_type k = Some r ->
     rating_key r = k /\ first_latest asof seen r) /\
  (forall r' d', r' ∈ seen -> record_rad r' = Ok d' -> date_ltb asof d' = false ->
     is_Some (dict_get by_type (rating_key r'))).

(** A record whose rating action date can be read. *)
Definition has_rad (r : record) : Prop := exists d, record_rad r = Ok d.

(** The number of records of a rating-type group. *)
Definition group_size (k : option string * option string * option string)
    (records : list record) : nat :=
  length (List.filter (fun r => bool_decide (rating_key r = k)) records).

(** ** Names used in the statements *)

(** The tag that [xml_to_records] looks for, for the two rating types. *)
Definition root_tag_of (rating_type : string) : option string :=
  if bool_decide (rating_type = "obligor") then Some (RATINGS_NAMESPACE +:+ "OD")
  else if bool_decide (rating_type = "issuer") then Some (RATINGS_NAMESPACE +:+ "ISD")
  else None.

(** The dictionary that is specific to a rating type. *)
Definition type_fields_of (rating_type : string) : option (list (string * string)) :=
  if bool_decide (rating_type = "obligor") then Some OBLIGOR_FIELDS
  else if bool_decide (rating_type = "issuer") then Some ISSUER_FIELDS
  else None.

(** The cells of a record, column by column. *)
Definition render (fieldnames : list string) (r : record) : list string :=
  (fun key => cell (r !! key)) <$> fieldnames.

(** A row that is the cells of some record. *)
Definition rendered (fieldnames : list string) (row : list string) : Prop :=
  exists r : gmap string (option string), row = render fieldnames r.

(** The two document-level fields written into a record. *)
Definition attach (ran fcd : option string) (r : record) : record :=
  <["FCD" := fcd]> (<["RAN" := ran]> r).

(** ** Sample documents *)

Definition qname (name : string) : string := RATINGS_NAMESPACE +:+ name.

Definition leaf (name value : string) : Element :=
  Elem (qname name) (Some value) [].

(** One rating-detail entry of an obligor. *)
Definition sample_ord (rating rad : string) : Element :=
  Elem (qname "ORD") None [leaf "R" rating; leaf "RAD" rad; leaf "RT" "LT"].

(** An obligor with two ratings, of June 2022 and of June 2023. *)
Definition sample_od : Element :=
  Elem (qname "OD") None
    [leaf "OBNAME" "Obligor Inc";
     sample_ord "BBB" "2022-06-01";
     sample_ord "A" "2023-06-01"].

Definition sample_root : Element :=
  Elem (qname "ROCRA") None
    [leaf "RAN" "ACME Ratings"; leaf "FCD" "2023-01-01"; sample_od].

(** An obligor with two ratings of the same key and the same date. *)
Definition tie_od : Element :=
  Elem (qname "OD") None
    [sample_ord "A" "2022-06-01"; sample_ord "B" "2022-06-01"].

(** An obligor whose own leaf [R] collides with the [R] of its rating. *)
Definition collision_od : Element :=
  Elem (qname "OD") None
    [Elem (qname "ORD") None [leaf "R" "A"]; leaf "R" "B"].

(** An instrument whose own leaf [RAD] collides with that of its rating. *)
Definition collision_ind : Element :=
  Elem (qname "IND") None
    [leaf "RAD" "2001-01-01";
     Elem (qname "IRD") None [leaf "R" "AA"; leaf "RAD" "2020-05-05"]].

(** An obligor whose second rating has a leaf that no field dictionary
    names. *)
Definition extra_root : Element :=
  Elem (qname "ROCRA") None
    [Elem (qname "OD") None
       [Elem (qname "ORD") None [leaf "R" "C"];
        Elem (qname "ORD") None [leaf "R" "D"; leaf "XYZ" "?"]]].

(** An obligor with the same leaf twice, the second one inside a group. *)
Definition repeat_od : Element :=
  Elem (qname "OD") None
    [leaf "OSC" "first";
     Elem (qname "GRP") None [leaf "OSC" "second"];
     sample_ord "A" "2023-06-01";
     leaf "OBNAME" "Obligor Inc"].

(** A document whose obligor name has a character outside ASCII (code 233),
    and the encoder of a locale that encodes ASCII only. *)
Definition accent_root : Element :=
  Elem (qname "ROCRA") None
    [Elem (qname "OD") None
       [leaf "OBNAME" (String (ascii_of_nat 233) "");
        Elem (qname "ORD") None [leaf "R" "C"]]].

Definition ascii_encodable (row : list string) : bool :=
  forallb (fun s => forallb (fun c => (N_of_ascii c <? 128)%N)
                      (String.list_ascii_of_string s)) row.

Definition record_of (l : list (string * option string))
  : gmap string (option string) := list_to_map l.

Definition all_encodable (row : list string) : bool := true.

(** ** Names used in further statements *)

(** Whether the driver reads an entry. *)
Definition is_xml (entry : ZipEntry) : bool := endswith (filename entry) ".xml".

(** The records that an entry gives. *)
Definition entry_records (rating_type : string) (asof : option date)
    (entry : ZipEntry) : result (list record) :=
  let* root := parsed entry in xml_to_records root rating_type asof.

(** A record that the writer accepts and the output file can encode. *)
Definition writable (encodable : list string -> bool) (fieldnames : list string)
    (r : record) : Prop :=
  dom r ⊆ list_to_set fieldnames /\ encodable (render fieldnames r) = true.

(** The rows of the records of several entries, entry after entry. *)
Definition rows_of (fieldnames : list string) (recss : list (list record))
  : list (list string) :=
  concat (List.map (fun records : list record => render fieldnames <$> records) recss).

(** The keys of a list in the order in which each is met first. *)
Definition first_seen {K : Type} `{EqDecision K} (keys : list K) : list K :=
  foldl (fun seen k => if decide (k ∈ seen) then seen else seen ++ [k]) [] keys.

(** The records dated on or before the cutoff. *)
Definition not_after (asof : date) (records : list record) : list record :=
  List.filter
    (fun r => match record_rad r with
              | Ok d => negb (date_ltb asof d)
              | Raise _ => false
              end) records.

(** The leaves among the strict descendants of an element, in document
    order. *)
Definition leaf_descendants (element : Element) : list Element :=
  List.filter (fun e => bool_decide (length (children e) = 0)) (descendants element).

(** The records of a container whose items are containers of plain items,
    as the issuer detail with its instruments and their ratings: for each
    item and each of its own items, the fields of the inner item, written
    over by the context of the item, then by that of the container. *)
Definition nested_records (element : Element) (item inner : string)
  : list record :=
  concat
    (List.map
       (fun it : Element =>
          (fun rating : Element =>
             record_update
               (record_update (shared_context rating) (shared_context it))
               (shared_context element))
            <$> items (Some inner) (children it))
       (items (Some item) (children element))).

(** A document with two obligors. *)
Definition two_od_root : Element :=
  Elem (qname "ROCRA") None
    [leaf "RAN" "ACME Ratings";
     Elem (qname "OD") None [leaf "OBNAME" "First"; sample_ord "A" "2023-06-01"];
     Elem (qname "OD") None [leaf "OBNAME" "Second"; sample_ord "B" "2023-07-01"]].

(** An issuer with two instruments, of two ratings and of none. *)
Definition sample_isd : Element :=
  Elem (qname "ISD") None
    [leaf "ISSNAME" "Issuer SA";
     Elem (qname "IND") None
       [leaf "CUSIP" "123456789";
        Elem (qname "IRD") None [leaf "R" "AA"; leaf "RAD" "2020-05-05"];
        Elem (qname "IRD") None [leaf "R" "A"; leaf "RAD" "2021-05-05"]];
     Elem (qname "IND") None [leaf "CUSIP" "987654321"]].

(** An issuer with two instruments, each with ratings of one same key. *)
Definition two_ind_isd : Element :=
  Elem (qname "ISD") None
    [leaf "ISSNAME" "Issuer SA";
     Elem (qname "IND") None
       [leaf "CUSIP" "111";
        Elem (qname "IRD") None [leaf "R" "AA"; leaf "RAD" "2020-05-05"];
        Elem (qname "IRD") None [leaf "R" "A"; leaf "RAD" "2021-05-05"]];
     Elem (qname "IND") None
       [leaf "CUSIP" "222";
        Elem (qname "IRD") None [leaf "R" "B"; leaf "RAD" "2019-01-01"]]].

(** A document whose only rating has no date. *)
Definition undated_root : Element :=
  Elem (qname "ROCRA") None
    [Elem (qname "OD") None [Elem (qname "ORD") None [leaf "R" "C"]]].

(** A test on records that looks at their rating key only, and two lists of
    which the first has, for every such test, no more records that pass. *)
Definition by_key (P : record -> bool) : Prop :=
  forall r1 r2 : record, rating_key r1 = rating_key r2 -> P r1 = P r2.

Definition fewer_by_key (out' out : list record) : Prop :=
  forall P, by_key P -> length (List.filter P out') <= length (List.filter P out).

(** An issuer whose detail has a date leaf of its own, beside an instrument
    with one rating. *)
Definition dated_isd_root : Element :=
  Elem (qname "ROCRA") None
    [Elem (qname "ISD") None
       [leaf "RAD" "2030-01-01";
        Elem (qname "IND") None
          [Elem (qname "IRD") None [leaf "R" "AA"; leaf "RAD" "2020-05-05"]]]].
(** * Properties *)

Lemma pop_nil {A : Type} (l : list A) : pop l = None -> l = [].
Proof.
  unfold pop. destruct (reverse l) as [|y r] eqn:E; [|discriminate].
  intros _. apply (f_equal reverse) in E. by rewrite reverse_involutive in E.
Qed.

Lemma loop_nil t st this records : loop t st [] this records = Ok (this, records).
Proof. by rewrite loop_equation_1. Qed.

Lemma loop_snoc t st stack e this records :
  loop t st (stack ++ [e]) this records =
  if bool_decide (Some (tag e) = st) then
    match element_to_records e t with
    | Ok subs => loop t st stack this (records ++ subs)
    | Raise x => Raise x
    end
  else if bool_decide (length (children e) ≠ 0) then
    loop t st (stack ++ reverse (children e)) this records
  else loop t st stack (<[slice_from 40 (tag e) := text e]> this) records.
Proof.
  rewrite loop_equation_1.
  destruct (inspect (pop (stack ++ [e]))) as [[[s' e']|] H].
  - pose proof (pop_Some _ _ _ H) as [-> ->]%app_inj_tail. reflexivity.
  - pose proof (pop_nil _ H) as Hnil. by destruct stack.
Qed.

Lemma visited_unfold st e :
  visited st e =
  if bool_decide (Some (tag e) = st) then [e]
  else if bool_decide (length (children e) ≠ 0) then visited_list st (children e)
  else [e].
Proof.
  destruct e as [tg x cs]. simpl.
  by repeat case_bool_decide.
Qed.

Lemma visited_list_cons st c l :
  visited_list st (c :: l) = visited st c ++ visited_list st l.
Proof. reflexivity. Qed.

Lemma handle_all_app t st acc l1 l2 :
  handle_all t st acc (l1 ++ l2) =
  let* acc' := handle_all t st acc l1 in handle_all t st acc' l2.
Proof.
  revert acc. induction l1 as [|e l1 IH]; intros acc; simpl; [done|].
  destruct (handle t st acc e) as [acc'|x]; simpl; [apply IH|done].
Qed.

(** The work list, popped from its end, goes through the trees pushed in
    reverse in their document order. *)
Lemma loop_visited t st l : forall stack this records,
  loop t st (stack ++ reverse l) this records =
  let* acc := handle_all t st (this, records) (visited_list st l) in
  loop t st stack acc.1 acc.2.
Proof.
  induction l as [l IH] using (induction_ltof1 _ stack_size).
  unfold ltof in IH. intros stack this records.
  destruct l as [|c l]; [by rewrite app_nil_r|].
  assert (Hsize : stack_size (c :: l) = S (stack_size (children c) + stack_size l))
    by (change (stack_size (c :: l)) with (element_size c + stack_size l);
        by rewrite (element_size_children c)).
  rewrite Hsize in IH. clear Hsize.
  rewrite reverse_cons, app_assoc, loop_snoc, visited_list_cons, handle_all_app.
  rewrite visited_unfold. unfold element_to_records.
  case_bool_decide as Hitem.
  - simpl. unfold handle, is_item. rewrite bool_decide_eq_true_2 by done.
    unfold element_to_records.
    destruct (bind (loop t _ _ _ _) _) as [subs|x]; simpl; [|done].
    apply IH. lia.
  - case_bool_decide as Hlen.
    + rewrite IH by lia.
      destruct (handle_all t st (this, records) _) as [[this' records']|x];
        simpl; [|done].
      apply IH. lia.
    + simpl. unfold handle, is_item. rewrite bool_decide_eq_false_2 by done.
      simpl. apply IH. lia.
Qed.

Lemma element_to_records_visited element t :
  element_to_records element t =
  let* acc := handle_all t (SEQUENCE_TAGS !! tag element) (∅, [])
                (visited_list (SEQUENCE_TAGS !! tag element) (children element)) in
  finish t element acc.
Proof.
  unfold element_to_records.
  rewrite <- (app_nil_l (reverse (children element))), loop_visited.
  destruct (handle_all _ _ _ _) as [[this records]|x]; simpl; [|done].
  by rewrite loop_nil.
Qed.

Lemma handle_all_split t st l : forall this records,
  handle_all t st (this, records) l =
  let* subs := sub_records t (List.filter (is_item st) l) in
  Ok (leaf_fields this (List.filter (fun e => negb (is_item st e)) l),
      records ++ subs).
Proof.
  induction l as [|e l IH]; intros this records; simpl.
  - by rewrite app_nil_r.
  - unfold handle. destruct (is_item st e); simpl.
    + destruct (element_to_records e t) as [subs|x]; simpl; [|done].
      rewrite IH. destruct (sub_records t _) as [rest|x]; simpl; [|done].
      by rewrite app_assoc.
    + apply IH.
Qed.

(** The flattener in terms of the document-order traversal: the shared
    context is read off the leaves outside the items, the sub-records are
    those of the items, and [finish] combines them. *)
Lemma element_to_records_unfold element t :
  element_to_records element t =
  let* subs := sub_records t (items (SEQUENCE_TAGS !! tag element) (children element)) in
  finish t element (shared_context element, subs).
Proof.
  rewrite element_to_records_visited, handle_all_split.
  unfold items, shared_context, context_leaves.
  by destruct (sub_records t _).
Qed.

(** ** Order on dates *)

Ltac date_order :=
  unfold date_ltb in *;
  repeat match goal with d : date |- _ => destruct d end;
  simpl in *;
  repeat (rewrite ?orb_true_iff, ?orb_false_iff, ?andb_true_iff,
            ?andb_false_iff, ?Z.ltb_lt, ?Z.ltb_ge, ?Z.eqb_eq, ?Z.eqb_neq in * );
  lia.

Example date_fromisoformat_ex1 :
  date_fromisoformat "2022-06-01" = Ok (mkdate 2022 6 1).
Proof. reflexivity. Qed.

Example date_fromisoformat_ex2 : date_fromisoformat "2023-02-29" = Raise ValueError.
Proof. reflexivity. Qed.

Lemma date_ltb_irrefl a : date_ltb a a = false.
Proof. date_order. Qed.

Lemma date_le_trans a b c :
  date_ltb b a = false -> date_ltb c b = false -> date_ltb c a = false.
Proof. intros H1 H2. date_order. Qed.

Lemma date_le_lt_trans a b c :
  date_ltb b a = false -> date_ltb b c = true -> date_ltb a c = true.
Proof. intros H1 H2. date_order. Qed.

Lemma date_ltb_le a b : date_ltb a b = true -> date_ltb b a = false.
Proof. intros H. date_order. Qed.

(** ** Ordered dictionaries *)

Section OrderedDictFacts.
Context {K V : Type} `{EqDecision K}.
Implicit Types (d : list (K * V)) (k : K) (v : V).

Lemma dict_get_None d k : dict_get d k = None <-> k ∉ dict_keys d.
Proof.
  unfold dict_keys. induction d as [|[k' v'] d IH]; simpl.
  - split; [intros _; apply not_elem_of_nil|done].
  - rewrite not_elem_of_cons. case_decide as Hk.
    + split; [done|]. intros [Hne _]. congruence.
    + rewrite IH. split; [by intros ?|by intros [_ ?]].
Qed.

Lemma dict_get_Some d k v : dict_get d k = Some v -> (k, v) ∈ d.
Proof.
  induction d as [|[k' v'] d IH]; simpl; [done|].
  case_decide; [intros [= ->]; subst; left|right; auto].
Qed.

Lemma dict_get_elem_of d k v :
  NoDup (dict_keys d) -> (k, v) ∈ d -> dict_get d k = Some v.
Proof.
  unfold dict_keys. induction d as [|[k' v'] d IH]; simpl.
  - by intros _ ?%elem_of_nil.
  - rewrite NoDup_cons. intros [Hk Hd] [[= -> ->]|Hin]%elem_of_cons.
    + by rewrite decide_True.
    + rewrite decide_False; [auto|].
      intros ->. apply Hk. apply list_elem_of_fmap. by exists (k, v).
Qed.

Lemma dict_keys_set d k v :
  dict_keys (dict_set d k v) =
  if decide (k ∈ dict_keys d) then dict_keys d else dict_keys d ++ [k].
Proof.
  unfold dict_keys. induction d as [|[k' v'] d IH].
  - destruct (decide _) as [[]%elem_of_nil|]; done.
  - cbn [dict_set]. destruct (decide (k' = k)) as [->|Hne].
    + rewrite !fmap_cons. cbn [fst].
      destruct (decide (k ∈ k :: d.*1)) as [|Hnin]; [done|].
      destruct Hnin. left.
    + rewrite !fmap_cons, IH. cbn [fst].
      destruct (decide (k ∈ d.*1)) as [Hin|Hnin];
        destruct (decide (k ∈ k' :: d.*1)) as [Hin'|Hnin']; try done.
      * destruct Hnin'. by right.
      * apply elem_of_cons in Hin' as [->|]; done.
Qed.

Lemma dict_set_NoDup d k v : NoDup (dict_keys d) -> NoDup (dict_keys (dict_set d k v)).
Proof.
  intros Hd. rewrite dict_keys_set. case_decide; [done|].
  apply NoDup_app. split_and!; [done| |apply NoDup_singleton].
  intros x Hx ->%list_elem_of_singleton. done.
Qed.

Lemma dict_get_set d k v k' :
  dict_get (dict_set d k v) k' = if decide (k = k') then Some v else dict_get d k'.
Proof.
  induction d as [|[k0 v0] d IH]; simpl; [done|].
  destruct (decide (k0 = k)) as [->|Hne]; simpl.
  - by destruct (decide (k = k')).
  - destruct (decide (k0 = k')) as [->|Hne']; [by rewrite decide_False|done].
Qed.

Lemma dict_values_elem_of d v :
  NoDup (dict_keys d) -> v ∈ dict_values d -> exists k, dict_get d k = Some v.
Proof.
  intros Hd ([k v'] & -> & Hin)%list_elem_of_fmap.
  exists k. by apply dict_get_elem_of.
Qed.
End OrderedDictFacts.

(** ** The as-of filter *)

Section FilterFacts.
Variable asof : date.
Implicit Types (r : gmap string (option string))
               (seen records : list (gmap string (option string))).

Lemma first_latest_bound seen r d :
  first_latest asof seen r -> record_rad r = Ok d ->
  forall r' d', r' ∈ seen -> rating_key r' = rating_key r ->
    record_rad r' = Ok d' -> date_ltb asof d' = false -> date_ltb d d' = false.
Proof.
  intros (d0 & pre & post & Hd0 & _ & -> & Hpre & Hpost) Hd r' d' Hin Hk Hd' Hle.
  assert (d0 = d) as -> by congruence.
  apply elem_of_app in Hin as [Hin|Hin]; [|apply elem_of_cons in Hin as [->|Hin]].
  - apply date_ltb_le. eauto.
  - assert (d' = d) as -> by congruence. apply date_ltb_irrefl.
  - eauto.
Qed.

Lemma first_latest_snoc seen r r0 :
  first_latest asof seen r ->
  (forall d d0, record_rad r = Ok d -> rating_key r0 = rating_key r ->
     record_rad r0 = Ok d0 -> date_ltb asof d0 = false -> date_ltb d d0 = false) ->
  first_latest asof (seen ++ [r0]) r.
Proof.
  intros (d & pre & post & Hd & Hle & -> & Hpre & Hpost) Hnew.
  exists d, pre, (post ++ [r0]). split_and!; try done.
  - by rewrite <- app_assoc.
  - intros r' d' [Hin| ->%list_elem_of_singleton]%elem_of_app; eauto.
Qed.

Lemma first_latest_new seen r d :
  record_rad r = Ok d -> date_ltb asof d = false ->
  (forall r' d', r' ∈ seen -> rating_key r' = rating_key r ->
     record_rad r' = Ok d' -> date_ltb asof d' = false -> date_ltb d' d = true) ->
  first_latest asof (seen ++ [r]) r.
Proof.
  intros Hd Hle Hseen. exists d, seen, []. split_and!; try done.
  by intros r' d' ?%elem_of_nil.
Qed.

Lemma by_type_inv_nil : by_type_inv asof [] [].
Proof.
  split_and!; [apply NoDup_nil_2|done|by intros r' d' ?%elem_of_nil].
Qed.

(** A record dated after the cutoff leaves [by_type] as it is. *)
Lemma by_type_inv_skip by_type seen r d :
  by_type_inv asof by_type seen ->
  record_rad r = Ok d -> date_ltb asof d = true ->
  by_type_inv asof by_type (seen ++ [r]).
Proof.
  intros (Hnd & Hget & Hall) Hd Hgt. split_and!; [done| |].
  - intros k r1 Hk. destruct (Hget k r1 Hk) as [Hkey Hfl]. split; [done|].
    apply first_latest_snoc; [done|]. intros; congruence.
  - intros r' d' [Hin| ->%list_elem_of_singleton]%elem_of_app ? ?; [eauto|congruence].
Qed.

(** A record not more recent than the one kept for its key leaves
    [by_type] as it is. *)
Lemma by_type_inv_keep by_type seen r d old old_d :
  by_type_inv asof by_type seen ->
  record_rad r = Ok d -> date_ltb asof d = false ->
  dict_get by_type (rating_key r) = Some old ->
  record_rad old = Ok old_d -> date_ltb old_d d = false ->
  by_type_inv asof by_type (seen ++ [r]).
Proof.
  intros (Hnd & Hget & Hall) Hd Hle Hold Hold_d Hnot. split_and!; [done| |].
  - intros k r1 Hk. destruct (Hget k r1 Hk) as [Hkey Hfl]. split; [done|].
    apply first_latest_snoc; [done|].
    intros d1 d0 Hd1 Hkeys Hd0 _.
    assert (r1 = old) as -> by congruence. congruence.
  - intros r' d' [Hin| ->%list_elem_of_singleton]%elem_of_app ? ?; [eauto|].
    by rewrite Hold.
Qed.

(** A record is stored when its key is new, and when it is strictly more
    recent than the one kept for its key. *)
Lemma by_type_inv_store by_type seen r d :
  by_type_inv asof by_type seen ->
  record_rad r = Ok d -> date_ltb asof d = false ->
  (forall old, dict_get by_type (rating_key r) = Some old ->
     exists old_d, record_rad old = Ok old_d /\ date_ltb old_d d = true) ->
  by_type_inv asof (dict_set by_type (rating_key r) r) (seen ++ [r]).
Proof.
  intros (Hnd & Hget & Hall) Hd Hle Hold. split_and!.
  - by apply dict_set_NoDup.
  - intros k r1. rewrite dict_get_set. case_decide as Hk.
    + intros [= <-]. split; [done|].
      apply (first_latest_new _ _ d); [done..|].
      intros r' d' Hin Hkey Hd' Hle'.
      destruct (Hall r' d' Hin Hd' Hle') as [old Hgetold].
      rewrite Hkey in Hgetold.
      destruct (Hold old Hgetold) as (old_d & Hold_d & Hlt).
      destruct (Hget _ _ Hgetold) as [Hkold Hfl].
      eapply date_le_lt_trans; [|exact Hlt].
      eapply (first_latest_bound _ _ _ Hfl Hold_d r' d'); congruence.
    + intros Hk1. destruct (Hget k r1 Hk1) as [Hkey Hfl]. split; [done|].
      apply first_latest_snoc; [done|]. intros; congruence.
  - intros r' d' Hin Hd' Hle'. rewrite dict_get_set. case_decide; [done|].
    apply elem_of_app in Hin as [Hin| ->%list_elem_of_singleton]; [eauto|done].
Qed.

Lemma filter_loop_spec records : forall by_type seen,
  by_type_inv asof by_type seen -> Forall has_rad records ->
  exists out, filter_loop asof by_type records = Ok out
              /\ by_type_inv asof out (seen ++ records).
Proof.
  induction records as [|r records IH]; intros by_type seen Hinv Hall.
  - exists by_type. by rewrite app_nil_r.
  - apply Forall_cons in Hall as [[d Hd] Hall].
    rewrite (cons_middle r), app_assoc. cbn [filter_loop]. rewrite Hd. cbn [bind].
    destruct (date_ltb asof d) eqn:Hcut.
    { apply IH; [|done]. by apply (by_type_inv_skip _ _ _ d). }
    destruct (dict_get by_type (rating_key r)) as [old|] eqn:Hget.
    + destruct Hinv as (Hnd & Hget' & Hseen).
      destruct (Hget' _ _ Hget) as [Hkold (old_d & pre & post & Hold_d & Hrest)].
      rewrite Hold_d. cbn [bind].
      destruct (date_ltb old_d d) eqn:Hnew.
      * apply IH; [|done]. apply (by_type_inv_store _ _ _ d); [done..|].
        intros old' Hold'. exists old_d. split; congruence.
      * apply IH; [|done]. by apply (by_type_inv_keep _ _ _ d old old_d).
    + cbn [bind]. apply IH; [|done]. apply (by_type_inv_store _ _ _ d); [done..|].
      intros old Hold. congruence.
Qed.

(** Without a readable date on every record the loop raises. *)
Lemma filter_loop_Ok records : forall by_type out,
  filter_loop asof by_type records = Ok out -> Forall has_rad records.
Proof.
  induction records as [|r records IH]; intros by_type out; [done|].
  cbn [filter_loop]. destruct (record_rad r) as [d|x] eqn:Hd; [|done].
  cbn [bind]. intros Hout. apply Forall_cons. split; [by exists d|].
  destruct (date_ltb asof d); [by eapply IH|].
  destruct (dict_get by_type (rating_key r)) as [old|]; cbn [bind] in Hout.
  - destruct (record_rad old); [|done]. cbn [bind] in Hout.
    destruct (date_ltb _ d); by eapply IH.
  - by eapply IH.
Qed.

Lemma by_type_inv_keys by_type seen :
  by_type_inv asof by_type seen ->
  rating_key <$> dict_values by_type = dict_keys by_type.
Proof.
  intros (Hnd & Hget & _). unfold dict_values, dict_keys.
  assert (Hall : forall k r, (k, r) ∈ by_type -> rating_key r = k).
  { intros k r Hin. by apply Hget, dict_get_elem_of. }
  clear Hnd Hget. induction by_type as [|[k r] by_type IH]; [done|].
  rewrite !fmap_cons. cbn [fst snd]. f_equal.
  - apply Hall. left.
  - apply IH. intros k' r' Hin. apply Hall. by right.
Qed.
End FilterFacts.

Lemma filter_asof_spec asof records element :
  tag element ∈ rating_detail_tags -> Forall has_rad records ->
  exists by_type,
    filter_asof asof records element = Ok (dict_values by_type)
    /\ by_type_inv asof by_type records.
Proof.
  intros Htag Hall. unfold filter_asof, filter_records.
  rewrite bool_decide_eq_true_2 by done.
  destruct (filter_loop_spec asof records [] [] (by_type_inv_nil asof) Hall)
    as (by_type & -> & Hinv).
  by exists by_type.
Qed.

Lemma by_type_inv_values asof by_type records r :
  by_type_inv asof by_type records -> r ∈ dict_values by_type ->
  dict_get by_type (rating_key r) = Some r /\ first_latest asof records r.
Proof.
  intros Hinv Hin. pose proof Hinv as (Hnd & Hget & _).
  destruct (dict_values_elem_of _ _ Hnd Hin) as [k Hk].
  destruct (Hget _ _ Hk) as [<- Hfl]. done.
Qed.

Lemma first_latest_elem_of asof records r :
  first_latest asof records r -> r ∈ records.
Proof.
  intros (d & pre & post & _ & _ & -> & _). apply elem_of_app. right. left.
Qed.

Lemma group_size_pos k records :
  0 < group_size k records <-> exists r, r ∈ records /\ rating_key r = k.
Proof.
  unfold group_size. induction records as [|r records IH]; simpl.
  - split; [lia|]. by intros (r & ?%elem_of_nil & _).
  - case_bool_decide as Hk; simpl.
    + split; [|lia]. intros _. exists r. split; [left|done].
    + rewrite IH. split.
      * intros (r' & Hin & Hk'). exists r'. split; [by right|done].
      * intros (r' & [->|Hin]%elem_of_cons & Hk'); [done|]. by exists r'.
Qed.

Lemma group_size_NoDup k records :
  NoDup (rating_key <$> records) -> group_size k records <= 1.
Proof.
  unfold group_size. induction records as [|r records IH]; [simpl; lia|].
  rewrite fmap_cons, NoDup_cons. intros [Hnin Hnd]. cbn [List.filter].
  case_bool_decide as Hk; cbn [length]; [|auto].
  destruct (decide (0 < group_size k records)) as [Hpos|Hz];
    [|unfold group_size in Hz; lia].
  apply group_size_pos in Hpos as (r' & Hin & Hk').
  destruct Hnin. apply list_elem_of_fmap. exists r'. split; [congruence|done].
Qed.

Lemma filter_asof_Ok asof records element :
  tag element ∈ rating_detail_tags ->
  (exists out, filter_asof asof records element = Ok out) <-> Forall has_rad records.
Proof.
  intros Htag. split.
  - intros [out Hout]. unfold filter_asof, filter_records in Hout.
    rewrite bool_decide_eq_true_2 in Hout by done.
    destruct (filter_loop asof [] records) as [by_type|] eqn:Hloop; [|done].
    by eapply filter_loop_Ok.
  - intros Hall. destruct (filter_asof_spec asof records element Htag Hall)
      as (by_type & Hout & _). eauto.
Qed.

Lemma filter_asof_inv asof records element out :
  tag element ∈ rating_detail_tags ->
  filter_asof asof records element = Ok out ->
  exists by_type, out = dict_values by_type /\ by_type_inv asof by_type records.
Proof.
  intros Htag Hout.
  assert (Hall : Forall has_rad records) by (apply (filter_asof_Ok asof _ element); eauto).
  destruct (filter_asof_spec asof records element Htag Hall) as (by_type & Hout' & Hinv).
  exists by_type. split; [congruence|done].
Qed.

Lemma filter_asof_subset asof records element out r :
  filter_asof asof records element = Ok out -> r ∈ out -> r ∈ records.
Proof.
  unfold filter_asof, filter_records. case_bool_decide as Htag.
  - destruct (filter_loop asof [] records) as [by_type|] eqn:Hloop; [|done].
    cbn [bind]. intros [= <-] Hr.
    pose proof (filter_loop_Ok _ _ _ _ Hloop) as Hall.
    destruct (filter_loop_spec asof records [] [] (by_type_inv_nil asof) Hall)
      as (by_type' & Hloop' & Hinv).
    assert (by_type' = by_type) as -> by congruence.
    eapply first_latest_elem_of, by_type_inv_values; done.
  - by intros [= <-].
Qed.


(** ** The flattener *)

Fixpoint Element_forall_ind (P : Element -> Prop)
    (H : forall tg x cs, Forall P cs -> P (Elem tg x cs)) (e : Element) : P e :=
  match e with
  | Elem tg x cs =>
      H tg x cs
        ((fix go (l : list Element) : Forall P l :=
            match l with
            | [] => Forall_nil_2 P
            | c :: l' => Forall_cons_2 P c l' (Element_forall_ind P H c) (go l')
            end) cs)
  end.

Lemma descendants_children e : descendants e = descendants_list (children e).
Proof. by destruct e. Qed.

Lemma visited_sublist st e : visited st e `sublist_of` e :: descendants e.
Proof.
  induction e as [tg x cs IH] using Element_forall_ind.
  rewrite visited_unfold, descendants_children. cbn [tag children].
  case_bool_decide; [apply sublist_skip, sublist_nil_l|].
  case_bool_decide; [|apply sublist_skip, sublist_nil_l].
  apply sublist_cons. clear -IH.
  induction IH as [|c cs Hc _ IHcs]; [done|].
  cbn [visited_list descendants_list foldr].
  change (foldr _ [] cs) with (visited_list st cs) at 1.
  change (foldr _ [] cs) with (descendants_list cs).
  change (c :: descendants c ++ descendants_list cs)
    with ((c :: descendants c) ++ descendants_list cs).
  by apply sublist_app.
Qed.

Lemma visited_list_sublist st element :
  visited_list st (children element) `sublist_of` descendants element.
Proof.
  rewrite descendants_children.
  induction (children element) as [|c cs IH]; [done|].
  cbn [visited_list descendants_list foldr].
  change (c :: descendants c ++ foldr _ [] cs)
    with ((c :: descendants c) ++ descendants_list cs).
  apply sublist_app; [apply visited_sublist|done].
Qed.

Lemma leaf_fields_app this l1 l2 :
  leaf_fields this (l1 ++ l2) = leaf_fields (leaf_fields this l1) l2.
Proof. apply foldl_app. Qed.

Lemma leaf_fields_other this l key :
  (forall e, e ∈ l -> slice_from 40 (tag e) ≠ key) ->
  leaf_fields this l !! key = this !! key.
Proof.
  revert this. induction l as [|e l IH]; intros this Hl; [done|].
  cbn [leaf_fields foldl]. change (foldl _ ?a l) with (leaf_fields a l).
  rewrite IH by (intros; apply Hl; by right).
  apply lookup_insert_ne, Hl. left.
Qed.

(** The last leaf of a key gives the key its value. *)
Lemma leaf_fields_last this pre leaf post :
  (forall e, e ∈ post -> slice_from 40 (tag e) ≠ slice_from 40 (tag leaf)) ->
  leaf_fields this (pre ++ leaf :: post) !! slice_from 40 (tag leaf)
  = Some (text leaf).
Proof.
  intros Hpost. rewrite leaf_fields_app. cbn [leaf_fields foldl].
  change (foldl _ ?a post) with (leaf_fields a post).
  rewrite leaf_fields_other by done. apply lookup_insert_eq.
Qed.

Lemma record_update_lookup (sub this : gmap string (option string)) key :
  record_update sub this !! key =
  match this !! key with
  | Some v => Some v
  | None => sub !! key
  end.
Proof.
  unfold record_update. rewrite lookup_union.
  by destruct (this !! key), (sub !! key).
Qed.

Lemma loop_traversal t element :
  loop t (SEQUENCE_TAGS !! tag element) (reverse (children element)) ∅ [] =
  handle_all t (SEQUENCE_TAGS !! tag element) (∅, [])
    (visited_list (SEQUENCE_TAGS !! tag element) (children element)).
Proof.
  rewrite <- (app_nil_l (reverse (children element))), loop_visited.
  destruct (handle_all _ _ _ _) as [[this records]|x]; [|done].
  apply loop_nil.
Qed.

(** C8: the work list goes through the nodes in document order: the loop
    handles the nodes of the document-order traversal one after the other.
    So a leaf outside the items, when no later such leaf has its key, gives
    the key its value in the shared context and in every record returned,
    with or without the as-of filter. *)
Theorem C8_worklist_in_document_order (t : option Transformation)
    (element : Element) (pre post : list Element) (later : Element) :
  context_leaves (SEQUENCE_TAGS !! tag element) (children element)
    = pre ++ later :: post ->
  (forall e, e ∈ post -> slice_from 40 (tag e) ≠ slice_from 40 (tag later)) ->
  loop t (SEQUENCE_TAGS !! tag element) (reverse (children element)) ∅ [] =
    handle_all t (SEQUENCE_TAGS !! tag element) (∅, [])
      (visited_list (SEQUENCE_TAGS !! tag element) (children element))
  /\ visited_list (SEQUENCE_TAGS !! tag element) (children element)
       `sublist_of` descendants element
  /\ shared_context element !! slice_from 40 (tag later) = Some (text later)
  /\ (forall this records,
        loop t (SEQUENCE_TAGS !! tag element) (reverse (children element)) ∅ []
          = Ok (this, records) ->
        this = shared_context element)
  /\ (forall asof out r,
        element_to_records element (filter_asof <$> asof) = Ok out -> r ∈ out ->
        r !! slice_from 40 (tag later) = Some (text later)).
Proof.
  intros Hctx Hpost.
  split; [apply loop_traversal|]. split; [apply visited_list_sublist|].
  assert (Hshared : shared_context element !! slice_from 40 (tag later)
                    = Some (text later)).
  { unfold shared_context. rewrite Hctx. by apply leaf_fields_last. }
  split_and!; [done| |].
  - intros this records. rewrite loop_traversal, handle_all_split.
    destruct (sub_records t _); [|done]. by intros [= <- _].
  - intros asof out r. rewrite element_to_records_unfold.
    destruct (sub_records _ _) as [subs|]; [|done].
    unfold finish. cbn [bind fst snd]. intros Hout Hr.
    assert (Hin : r ∈ match SEQUENCE_TAGS !! tag element with
                      | Some _ => (fun r0 => record_update r0 (shared_context element))
                                    <$> subs
                      | None => [shared_context element]
                      end).
    { destruct asof as [asof|]; cbn [fmap option_fmap option_map] in Hout.
      - by apply (filter_asof_subset _ _ _ _ _ Hout).
      - by injection Hout as <-. }
    destruct (SEQUENCE_TAGS !! tag element).
    + apply list_elem_of_fmap in Hin as (sub & -> & _).
      by rewrite record_update_lookup, Hshared.
    + by apply list_elem_of_singleton in Hin as ->.
Qed.

Lemma is_item_None e : is_item None e = false.
Proof. unfold is_item. by rewrite bool_decide_eq_false_2. Qed.

Lemma items_None l : items None l = [].
Proof.
  unfold items. induction (visited_list None l) as [|e v IH]; [done|].
  cbn [List.filter]. by rewrite is_item_None.
Qed.

Lemma items_tag item l it : it ∈ items (Some item) l -> tag it = item.
Proof.
  unfold items. rewrite list_elem_of_In, filter_In. intros [_ Hit].
  unfold is_item in Hit. apply bool_decide_eq_true_1 in Hit. congruence.
Qed.

(** An element that is not a sequence container gives one record, its
    shared context. *)
Lemma element_to_records_plain element :
  SEQUENCE_TAGS !! tag element = None ->
  element_to_records element None = Ok [shared_context element].
Proof.
  intros Hseq. rewrite element_to_records_unfold, Hseq, items_None.
  unfold finish. by rewrite Hseq.
Qed.

Lemma sub_records_plain its :
  (forall it, it ∈ its -> SEQUENCE_TAGS !! tag it = None) ->
  sub_records None its = Ok (shared_context <$> its).
Proof.
  induction its as [|it its IH]; intros Hits; [done|].
  cbn [sub_records]. rewrite element_to_records_plain by (apply Hits; left).
  rewrite IH by (intros; apply Hits; by right). done.
Qed.

Lemma visited_size st e x : x ∈ visited st e -> element_size x <= element_size e.
Proof.
  induction e as [tg tx cs IH] using Element_forall_ind.
  rewrite visited_unfold. cbn [tag children].
  case_bool_decide; [by intros ->%list_elem_of_singleton|].
  case_bool_decide; [|by intros ->%list_elem_of_singleton].
  rewrite (element_size_children (Elem tg tx cs)). cbn [children].
  clear -IH. induction IH as [|c cs Hc _ IHcs]; [by intros ?%elem_of_nil|].
  cbn [visited_list foldr stack_size].
  intros [Hin|Hin]%elem_of_app.
  - specialize (Hc Hin). lia.
  - specialize (IHcs Hin). unfold stack_size in IHcs. lia.
Qed.

Lemma visited_list_size st l x :
  x ∈ visited_list st l -> element_size x <= stack_size l.
Proof.
  induction l as [|c l IH]; [by intros ?%elem_of_nil|].
  cbn [visited_list foldr stack_size]. intros [Hin|Hin]%elem_of_app.
  - apply visited_size in Hin. lia.
  - specialize (IH Hin). unfold stack_size in IH. lia.
Qed.

(** C1, as the code has it: the records of a sequence container are its
    sub-records updated with the shared context, so that each holds the
    fields of both, and on a key collision the value of the shared context
    replaces that of the sub-record.  With the as-of filter the returned
    records are among these. *)
Theorem C1_records_updated_with_shared_context (element : Element)
    (item : string) (asof : option date)
    (out : list (gmap string (option string))) :
  SEQUENCE_TAGS !! tag element = Some item ->
  element_to_records element (filter_asof <$> asof) = Ok out ->
  exists subs,
    sub_records (filter_asof <$> asof) (items (Some item) (children element))
      = Ok subs /\
    (forall r, r ∈ out ->
       exists sub, sub ∈ subs /\ r = record_update sub (shared_context element)) /\
    (asof = None ->
       out = (fun sub => record_update sub (shared_context element)) <$> subs) /\
    (forall sub key,
       record_update sub (shared_context element) !! key =
       match shared_context element !! key with
       | Some v => Some v
       | None => sub !! key
       end).
Proof.
  intros Hseq. rewrite element_to_records_unfold, Hseq.
  destruct (sub_records _ _) as [subs|]; [|done]. cbn [bind].
  unfold finish. rewrite Hseq. cbn [fst snd]. intros Hout.
  exists subs. split_and!; [done| | |intros; apply record_update_lookup].
  - intros r Hr. destruct asof as [asof|]; cbn [fmap option_fmap option_map] in Hout.
    + apply (filter_asof_subset _ _ _ _ _ Hout) in Hr.
      apply list_elem_of_fmap in Hr as (sub & -> & Hsub). eauto.
    + injection Hout as <-. apply list_elem_of_fmap in Hr as (sub & -> & Hsub). eauto.
  - intros ->. by injection Hout as <-.
Qed.

(** When every child is an item or a leaf, the loop handles the children
    themselves. *)
Lemma visited_list_flat item l :
  (forall c, c ∈ l -> tag c = item \/ children c = []) ->
  visited_list (Some item) l = l.
Proof.
  induction l as [|c cs IH]; intros Hflat; [done|].
  cbn [visited_list foldr]. change (foldr _ [] cs) with (visited_list (Some item) cs).
  rewrite IH by (intros; apply Hflat; by right).
  rewrite visited_unfold.
  destruct (Hflat c) as [Hc|Hc]; [left| |].
  - by rewrite bool_decide_eq_true_2 by congruence.
  - rewrite Hc. cbn [length]. rewrite (bool_decide_eq_false_2 (0 ≠ 0)) by lia.
    by destruct (bool_decide _).
Qed.

(** C6, as the code has it: when the flattening, without a
    transformation, of a sequence container whose items are not containers
    themselves returns, it returns one record for each of its N items, in
    document order: the item's own fields written over by the
    shared-context fields.  So each record holds every shared-context
    field, and every field of the item whose key the shared context does
    not define.  With no item there is no record, whatever the shared
    context holds. *)
Theorem C6_one_record_per_item (element : Element) (item : string)
    (out : list (gmap string (option string))) :
  SEQUENCE_TAGS !! tag element = Some item ->
  SEQUENCE_TAGS !! item = None ->
  element_to_records element None = Ok out ->
  out = ((fun it => record_update (shared_context it) (shared_context element))
           <$> items (Some item) (children element))
  /\ length out = length (items (Some item) (children element))
  /\ (items (Some item) (children element) = [] -> out = [])
  /\ (forall it key v, shared_context element !! key = Some v ->
        record_update (shared_context it) (shared_context element) !! key = Some v)
  /\ (forall it key, shared_context element !! key = None ->
        record_update (shared_context it) (shared_context element) !! key
        = shared_context it !! key)
  /\ ((forall c, c ∈ children element -> tag c = item \/ children c = []) ->
        items (Some item) (children element)
        = List.filter (is_item (Some item)) (children element)).
Proof.
  intros Hseq Hitem Hout.
  assert (Heq : out =
    ((fun it => record_update (shared_context it) (shared_context element))
       <$> items (Some item) (children element))).
  { rewrite element_to_records_unfold, Hseq, sub_records_plain in Hout.
    - unfold finish in Hout. rewrite Hseq in Hout. cbn [bind fst snd] in Hout.
      injection Hout as <-. by rewrite <- list_fmap_compose.
    - intros it Hit. by rewrite (items_tag _ _ _ Hit). }
  split_and!; [done| | | | |].
  - rewrite Heq. by rewrite length_fmap.
  - intros Hnone. by rewrite Heq, Hnone.
  - intros it key v Hv. by rewrite record_update_lookup, Hv.
  - intros it key Hv. by rewrite record_update_lookup, Hv.
  - intros Hflat. unfold items. by rewrite visited_list_flat.
Qed.

(** C2: at a rating-detail container the as-of filter discards every record
    dated strictly after the cutoff, returns at most one record for each
    (rating type, subtype, term) key, null components included, and the date
    of a returned record is the latest among the input records of its key
    that are dated on or before the cutoff.  The filter returns whenever
    every record has a rating action date that can be read. *)
Theorem C2_filter_asof_latest_per_key (asof : date)
    (records : list (gmap string (option string))) (element : Element) :
  tag element ∈ rating_detail_tags ->
  (Forall has_rad records -> exists out, filter_asof asof records element = Ok out)
  /\ forall out, filter_asof asof records element = Ok out ->
       (forall r d, r ∈ records -> record_rad r = Ok d ->
          date_ltb asof d = true -> r ∉ out) /\
       NoDup (rating_key <$> out) /\
       (forall r, r ∈ out ->
          r ∈ records /\
          exists d, record_rad r = Ok d /\ date_ltb asof d = false /\
            forall r' d', r' ∈ records -> rating_key r' = rating_key r ->
              record_rad r' = Ok d' -> date_ltb asof d' = false ->
              date_ltb d d' = false).
Proof.
  intros Htag. split; [by apply filter_asof_Ok|]. intros out Hout.
  destruct (filter_asof_inv asof records element out Htag Hout) as (by_type & -> & Hinv).
  assert (Hsel : forall r, r ∈ dict_values by_type -> first_latest asof records r).
  { intros r Hin. by apply (by_type_inv_values asof by_type). }
  split_and!.
  - intros r d Hin Hd Hgt Hr. destruct (Hsel r Hr) as (d0 & _ & _ & Hd0 & Hle & _).
    congruence.
  - rewrite (by_type_inv_keys asof by_type records Hinv). apply Hinv.
  - intros r Hr. pose proof (Hsel r Hr) as Hfl.
    split; [by eapply first_latest_elem_of|].
    pose proof Hfl as (d & _ & _ & Hd & Hle & _).
    exists d. split_and!; [done..|]. by apply first_latest_bound.
Qed.

Lemma app_cons_cases {A : Type} (pre : list A) : forall pre' post post' x y,
  pre ++ x :: post = pre' ++ y :: post' ->
  (x = y /\ pre = pre' /\ post = post')
  \/ (x ∈ pre' /\ y ∈ post) \/ (y ∈ pre /\ x ∈ post').
Proof.
  induction pre as [|a pre IH]; intros [|b pre'] post post' x y Heq;
    cbn [app] in Heq.
  - injection Heq as -> ->. by left.
  - injection Heq as -> ->. right. left. split; [left|].
    apply elem_of_app. right. left.
  - injection Heq as -> <-. right. right. split; [left|].
    apply elem_of_app. right. left.
  - injection Heq as -> Heq.
    destruct (IH _ _ _ _ _ Heq) as [(-> & -> & ->)|[[Hx Hy]|[Hy Hx]]].
    + by left.
    + right. left. split; [by right|done].
    + right. right. split; [by right|done].
Qed.

(** A key has one record that is the first of its latest. *)
Lemma first_latest_unique asof records r r' :
  first_latest asof records r -> first_latest asof records r' ->
  rating_key r = rating_key r' -> r = r'.
Proof.
  intros (d & pre & post & Hd & Hle & -> & Hpre & Hpost)
         (d' & pre' & post' & Hd' & Hle' & Heq & Hpre' & Hpost') Hkey.
  destruct (app_cons_cases _ _ _ _ _ _ Heq) as [(-> & _ & _)|[[Hr Hr']|[Hr' Hr]]].
  - done.
  - pose proof (Hpre' r d Hr Hkey Hd Hle) as Hlt.
    pose proof (Hpost r' d' Hr' (eq_sym Hkey) Hd' Hle') as Hge. congruence.
  - pose proof (Hpre r' d' Hr' (eq_sym Hkey) Hd' Hle') as Hlt.
    pose proof (Hpost' r d Hr Hkey Hd Hle) as Hge. congruence.
Qed.

(** C3, as the code has it: among the records of a key that attain the
    latest date not after the cutoff, the as-of filter returns the one met
    first.  The records returned are exactly those that are, for their key,
    dated on or before the cutoff, strictly more recent than every record of
    the key before them and not older than any record of the key after
    them: such a record is returned, and no other is. *)
Theorem C3_filter_asof_tie_keeps_first (asof : date)
    (records out : list (gmap string (option string))) (element : Element) :
  tag element ∈ rating_detail_tags ->
  filter_asof asof records element = Ok out ->
  forall r, r ∈ out <-> first_latest asof records r.
Proof.
  intros Htag Hout.
  destruct (filter_asof_inv asof records element out Htag Hout) as (by_type & -> & Hinv).
  intros r. split.
  - intros Hin. by apply (by_type_inv_values asof by_type).
  - intros Hfl. pose proof (first_latest_elem_of _ _ _ Hfl) as Hr.
    pose proof Hfl as (d & _ & _ & Hd & Hle & _).
    pose proof Hinv as (_ & Hget & Hseen).
    destruct (Hseen r d Hr Hd Hle) as [r' Hr'].
    destruct (Hget _ _ Hr') as [Hkey Hfl'].
    assert (r' = r) as -> by (by apply (first_latest_unique asof records)).
    apply list_elem_of_fmap. exists (rating_key r, r).
    split; [done|by apply dict_get_Some].
Qed.

(** At a rating-detail container the filter receives the same records
    whatever the cutoff: those of the flattening without transformation. *)
Lemma element_to_records_filter_at_detail asof element :
  tag element ∈ rating_detail_tags ->
  element_to_records element (Some (filter_asof asof)) =
  let* records := element_to_records element None in
  filter_asof asof records element.
Proof.
  intros Htag.
  assert (exists item, SEQUENCE_TAGS !! tag element = Some item
            /\ SEQUENCE_TAGS !! item = None /\ item ∉ rating_detail_tags)
    as (item & Hseq & Hitem & Hnot).
  { unfold rating_detail_tags in Htag.
    apply elem_of_cons in Htag as [->|[->|[]%elem_of_nil]%elem_of_cons].
    - exists (RATINGS_NAMESPACE +:+ "ORD"). split_and!; [by vm_compute..|].
      apply (bool_decide_unpack _). by vm_compute.
    - exists (RATINGS_NAMESPACE +:+ "IRD"). split_and!; [by vm_compute..|].
      apply (bool_decide_unpack _). by vm_compute. }
  assert (Hsubs : forall its, (forall it, it ∈ its -> tag it = item) ->
            sub_records (Some (filter_asof asof)) its = sub_records None its).
  { induction its as [|it its IH]; intros Hits; [done|].
    cbn [sub_records]. rewrite IH by (intros; apply Hits; by right).
    f_equal. rewrite !element_to_records_unfold.
    rewrite (Hits it) by left. rewrite Hitem, items_None. cbn [sub_records bind].
    unfold finish. rewrite (Hits it) by left. rewrite Hitem.
    unfold filter_asof, filter_records.
    rewrite (Hits it) by left. by rewrite bool_decide_eq_false_2. }
  rewrite !element_to_records_unfold, Hseq.
  rewrite Hsubs by (intros it Hit; by apply items_tag in Hit).
  destruct (sub_records None _) as [subs|]; [|done]. cbn [bind].
  unfold finish. by rewrite Hseq.
Qed.


(** ** The record extractor *)

Lemma find_None root name :
  find root name = None <-> forall e, e ∈ descendants root -> tag e ≠ name.
Proof.
  unfold find. induction (descendants root) as [|c l IH]; cbn [List.find].
  - split; [by intros _ e ?%elem_of_nil|done].
  - case_bool_decide as Hc.
    + split; [done|]. intros Hall. destruct (Hall c); [left|done].
    + rewrite IH. split.
      * intros Hall e [->|Hin]%elem_of_cons; auto.
      * intros Hall e Hin. apply Hall. by right.
Qed.

Lemma xml_to_records_found root rating_type root_tag asof element :
  root_tag_of rating_type = Some root_tag ->
  find root root_tag = Some element ->
  xml_to_records root rating_type asof =
  let* records := element_to_records element (filter_asof <$> asof) in
  Ok (attach (findtext root (RATINGS_NAMESPACE +:+ "RAN"))
             (findtext root (RATINGS_NAMESPACE +:+ "FCD")) <$> records).
Proof.
  unfold root_tag_of, xml_to_records. intros Htag Hfind.
  repeat case_bool_decide; try done; injection Htag as <-; cbn [bind];
    by rewrite Hfind.
Qed.

Lemma xml_to_records_absent root rating_type root_tag asof :
  root_tag_of rating_type = Some root_tag ->
  find root root_tag = None ->
  xml_to_records root rating_type asof = Ok [].
Proof.
  unfold root_tag_of, xml_to_records. intros Htag Hfind.
  repeat case_bool_decide; try done; injection Htag as <-; cbn [bind];
    by rewrite Hfind.
Qed.

(** C7: for the two rating types, a document without any element of the
    rating type's root tag gives no record and no error; and every record
    that the extraction returns holds the agency name and the file creation
    date of the document under [RAN] and [FCD], written over whatever the
    flattened record held under these keys. *)
Theorem C7_xml_to_records_root_and_agency_fields (root : Element)
    (rating_type root_tag : string) (asof : option date) :
  root_tag_of rating_type = Some root_tag ->
  ((forall e, e ∈ root :: descendants root -> tag e ≠ root_tag) ->
     xml_to_records root rating_type asof = Ok [])
  /\ (forall records r,
        xml_to_records root rating_type asof = Ok records -> r ∈ records ->
        r !! "RAN" = Some (findtext root (RATINGS_NAMESPACE +:+ "RAN"))
        /\ r !! "FCD" = Some (findtext root (RATINGS_NAMESPACE +:+ "FCD")))
  /\ (forall element flat,
        find root root_tag = Some element ->
        element_to_records element (filter_asof <$> asof) = Ok flat ->
        xml_to_records root rating_type asof =
        Ok ((fun r : gmap string (option string) =>
               <["FCD" := findtext root (RATINGS_NAMESPACE +:+ "FCD")]>
                 (<["RAN" := findtext root (RATINGS_NAMESPACE +:+ "RAN")]> r))
              <$> flat)).
Proof.
  intros Htag. split_and!.
  - intros Hnone. apply (xml_to_records_absent _ _ root_tag); [done|].
    apply find_None. intros e He. apply Hnone. by right.
  - intros records r. destruct (find root root_tag) as [element|] eqn:Hfind.
    + rewrite (xml_to_records_found _ _ _ _ _ Htag Hfind).
      destruct (element_to_records _ _) as [flat|]; [|done]. cbn [bind].
      intros [= <-] (r0 & -> & _)%list_elem_of_fmap. unfold attach.
      split; [by rewrite lookup_insert_ne, lookup_insert_eq|apply lookup_insert_eq].
    + rewrite (xml_to_records_absent _ _ _ _ Htag Hfind).
      by intros [= <-] ?%elem_of_nil.
  - intros element flat Hfind Hflat.
    by rewrite (xml_to_records_found _ _ _ _ _ Htag Hfind), Hflat.
Qed.

(** ** The cutoff on a whole document *)

Lemma find_Some root name e :
  find root name = Some e <->
  exists pre post, descendants root = pre ++ e :: post /\ tag e = name
                   /\ forall x, x ∈ pre -> tag x ≠ name.
Proof.
  unfold find. induction (descendants root) as [|c l IH]; cbn [List.find].
  - split; [done|]. intros (pre & post & Heq & _). by destruct pre.
  - case_bool_decide as Hc.
    + split.
      * intros [= <-]. exists [], l. split_and!; [done..|]. by intros x ?%elem_of_nil.
      * intros ([|c' pre] & post & Heq & Htag & Hpre).
        -- by injection Heq as -> _.
        -- injection Heq as <- _. destruct (Hpre c); [left|done].
    + rewrite IH. split.
      * intros (pre & post & -> & Htag & Hpre). exists (c :: pre), post.
        split_and!; [done..|]. intros x [->|Hx]%elem_of_cons; auto.
      * intros ([|c' pre] & post & Heq & Htag & Hpre).
        -- injection Heq as -> _. done.
        -- injection Heq as <- ->. exists pre, post. split_and!; [done..|].
           intros x Hx. apply Hpre. by right.
Qed.

Lemma rating_key_attach ran fcd (r : gmap string (option string)) :
  rating_key (attach ran fcd r) = rating_key r.
Proof.
  unfold rating_key, record_get, attach. by rewrite !lookup_insert_ne by done.
Qed.

Lemma record_rad_attach ran fcd (r : gmap string (option string)) :
  record_rad (attach ran fcd r) = record_rad r.
Proof. unfold record_rad, attach. by rewrite !lookup_insert_ne by done. Qed.

Lemma filter_fmap_length {A B : Type} (P : B -> bool) (f : A -> B) (l : list A) :
  length (List.filter P (f <$> l)) = length (List.filter (fun x => P (f x)) l).
Proof.
  induction l as [|x l IH]; [done|]. rewrite fmap_cons. cbn [List.filter].
  destruct (P (f x)); cbn [length]; by rewrite IH.
Qed.

Lemma NoDup_fmap_filter {A B : Type} (P : A -> bool) (f : A -> B) (l : list A) :
  NoDup (f <$> l) -> NoDup (f <$> List.filter P l).
Proof.
  induction l as [|x l IH]; [done|]. rewrite fmap_cons, NoDup_cons.
  intros [Hx Hl]. cbn [List.filter]. destruct (P x); [|auto].
  rewrite fmap_cons, NoDup_cons. split; [|auto].
  intros (y & Hy & [Hin _]%list_elem_of_In%filter_In)%list_elem_of_fmap.
  apply Hx. apply list_elem_of_fmap. exists y. by rewrite list_elem_of_In.
Qed.

(** The filter with the earlier cutoff keeps no key that the filter with
    the later cutoff does not keep. *)
Lemma fewer_by_key_filter d' d records element out' out :
  tag element ∈ rating_detail_tags -> date_ltb d d' = false ->
  filter_asof d' records element = Ok out' ->
  filter_asof d records element = Ok out ->
  fewer_by_key out' out.
Proof.
  intros Htag Hdd Hout' Hout P HP.
  destruct (filter_asof_inv d' records element out' Htag Hout') as (bt' & -> & Hinv').
  destruct (filter_asof_inv d records element out Htag Hout) as (bt & -> & Hinv).
  rewrite <- (length_fmap rating_key (List.filter P (dict_values bt'))).
  rewrite <- (length_fmap rating_key (List.filter P (dict_values bt))).
  apply submseteq_length, NoDup_submseteq.
  - apply NoDup_fmap_filter. rewrite (by_type_inv_keys d' bt' records Hinv').
    apply Hinv'.
  - intros k (r & -> & [Hr HPr]%list_elem_of_In%filter_In)%list_elem_of_fmap.
    apply list_elem_of_In in Hr.
    destruct (by_type_inv_values d' bt' records r Hinv' Hr) as [_ Hfl].
    pose proof (first_latest_elem_of _ _ _ Hfl) as Hin.
    destruct Hfl as (rad & _ & _ & Hrad & Hle & _).
    pose proof Hinv as (_ & Hget & Hseen).
    destruct (Hseen r rad Hin Hrad) as [r2 Hr2]; [by eapply date_le_trans|].
    destruct (Hget _ _ Hr2) as [Hk2 _].
    apply list_elem_of_fmap. exists r2. split; [done|].
    apply list_elem_of_In, filter_In. split.
    + apply list_elem_of_In, list_elem_of_fmap. exists (rating_key r, r2).
      split; [done|by apply dict_get_Some].
    + by rewrite (HP r2 r Hk2).
Qed.

Lemma fewer_by_key_refl out : fewer_by_key out out.
Proof. by intros P _. Qed.

Lemma fewer_by_key_app out1' out1 out2' out2 :
  fewer_by_key out1' out1 -> fewer_by_key out2' out2 ->
  fewer_by_key (out1' ++ out2') (out1 ++ out2).
Proof.
  intros H1 H2 P HP. rewrite !List.filter_app, !length_app.
  specialize (H1 P HP). specialize (H2 P HP). lia.
Qed.

Lemma fewer_by_key_fmap (h : gmap string (option string) -> gmap string (option string))
    out' out :
  (forall r1 r2, rating_key r1 = rating_key r2 -> rating_key (h r1) = rating_key (h r2)) ->
  fewer_by_key out' out -> fewer_by_key (h <$> out') (h <$> out).
Proof.
  intros Hh Hfewer P HP. rewrite !filter_fmap_length. apply Hfewer.
  intros r1 r2 Hkey. apply HP. by apply Hh.
Qed.

Lemma fewer_by_key_group_size out' out k :
  fewer_by_key out' out -> group_size k out' <= group_size k out.
Proof. intros Hfewer. apply Hfewer. intros r1 r2 Hkey. by rewrite Hkey. Qed.

Lemma fewer_by_key_length out' out : fewer_by_key out' out -> length out' <= length out.
Proof.
  intros Hfewer. specialize (Hfewer (fun _ => true) ltac:(done)).
  assert (Hall : forall l : list (gmap string (option string)),
            List.filter (fun _ => true) l = l).
  { induction l as [|x l IH]; [done|]. cbn [List.filter]. by rewrite IH. }
  by rewrite !Hall in Hfewer.
Qed.

Lemma record_get_update (r ctx : gmap string (option string)) name :
  record_get (record_update r ctx) name =
  match ctx !! name with
  | Some v => v
  | None => record_get r name
  end.
Proof.
  unfold record_get. rewrite record_update_lookup. by destruct (ctx !! name).
Qed.

Lemma rating_key_update (ctx r1 r2 : gmap string (option string)) :
  rating_key r1 = rating_key r2 ->
  rating_key (record_update r1 ctx) = rating_key (record_update r2 ctx).
Proof.
  unfold rating_key. rewrite !record_get_update. intros [= -> -> ->]. done.
Qed.

Lemma record_rad_update (ctx r : gmap string (option string)) :
  ctx !! "RAD" = None -> record_rad (record_update r ctx) = record_rad r.
Proof.
  intros Hctx. unfold record_rad. by rewrite record_update_lookup, Hctx.
Qed.

Lemma filter_asof_not_after asof records element out r :
  tag element ∈ rating_detail_tags ->
  filter_asof asof records element = Ok out -> r ∈ out ->
  exists rad, record_rad r = Ok rad /\ date_ltb asof rad = false.
Proof.
  intros Htag Hout Hr.
  destruct (filter_asof_inv asof records element out Htag Hout) as (bt & -> & Hinv).
  destruct (by_type_inv_values asof bt records r Hinv Hr)
    as [_ (rad & _ & _ & Hrad & Hle & _)]. eauto.
Qed.

(** The records of instruments under two cutoffs. *)
Lemma sub_records_fewer d' d its : forall subs' subs,
  date_ltb d d' = false ->
  (forall it, it ∈ its -> tag it ∈ rating_detail_tags) ->
  sub_records (Some (filter_asof d')) its = Ok subs' ->
  sub_records (Some (filter_asof d)) its = Ok subs ->
  fewer_by_key subs' subs
  /\ (forall r, r ∈ subs' -> exists rad, record_rad r = Ok rad /\ date_ltb d' rad = false)
  /\ (forall r, r ∈ subs -> exists rad, record_rad r = Ok rad /\ date_ltb d rad = false).
Proof.
  induction its as [|it its IH]; intros subs' subs Hdd Hits.
  - intros [= <-] [= <-]. split_and!; [apply fewer_by_key_refl|..];
      by intros r ?%elem_of_nil.
  - cbn [sub_records].
    assert (Htag : tag it ∈ rating_detail_tags) by (apply Hits; left).
    rewrite !(element_to_records_filter_at_detail _ _ Htag).
    destruct (element_to_records it None) as [flat|]; [|done]. cbn [bind].
    destruct (filter_asof d' flat it) as [kept'|] eqn:Hkept'; [|done].
    destruct (filter_asof d flat it) as [kept|] eqn:Hkept; [|done]. cbn [bind].
    destruct (sub_records (Some (filter_asof d')) its) as [rest'|]; [|done].
    destruct (sub_records (Some (filter_asof d)) its) as [rest|]; [|done].
    cbn [bind]. intros [= <-] [= <-].
    destruct (IH rest' rest Hdd) as (Hfewer & Hb' & Hb);
      [intros; apply Hits; by right|done..|].
    split_and!.
    + apply fewer_by_key_app; [|done]. by eapply fewer_by_key_filter.
    + intros r [Hr|Hr]%elem_of_app; [|auto].
      by eapply (filter_asof_not_after d' flat it).
    + intros r [Hr|Hr]%elem_of_app; [|auto].
      by eapply (filter_asof_not_after d flat it).
Qed.

(** The issuer detail hands the records of its instruments on. *)
Lemma element_to_records_isd asof element :
  tag element = RATINGS_NAMESPACE +:+ "ISD" ->
  element_to_records element (Some (filter_asof asof)) =
  let* subs := sub_records (Some (filter_asof asof))
                 (items (Some (RATINGS_NAMESPACE +:+ "IND")) (children element)) in
  Ok ((fun sub => record_update sub (shared_context element)) <$> subs).
Proof.
  intros Htag. rewrite element_to_records_unfold, Htag.
  change (SEQUENCE_TAGS !! (RATINGS_NAMESPACE +:+ "ISD"))
    with (Some (RATINGS_NAMESPACE +:+ "IND")).
  destruct (sub_records _ _) as [subs|]; [|done]. cbn [bind].
  unfold finish. rewrite Htag.
  change (SEQUENCE_TAGS !! (RATINGS_NAMESPACE +:+ "ISD"))
    with (Some (RATINGS_NAMESPACE +:+ "IND")).
  unfold filter_asof, filter_records. rewrite Htag.
  by rewrite bool_decide_eq_false_2 by (apply (bool_decide_unpack _); by vm_compute).
Qed.

Lemma xml_to_records_obligor root element asof :
  find root (RATINGS_NAMESPACE +:+ "OD") = Some element ->
  xml_to_records root "obligor" (Some asof) =
  let* flat := element_to_records element None in
  let* kept := filter_asof asof flat element in
  Ok (attach (findtext root (RATINGS_NAMESPACE +:+ "RAN"))
             (findtext root (RATINGS_NAMESPACE +:+ "FCD")) <$> kept).
Proof.
  intros Hfind.
  assert (Htag : tag element ∈ rating_detail_tags).
  { apply find_Some in Hfind as (_ & _ & _ & -> & _). left. }
  rewrite (xml_to_records_found _ "obligor" (RATINGS_NAMESPACE +:+ "OD") _ _
             eq_refl Hfind).
  cbn [fmap option_fmap option_map].
  rewrite (element_to_records_filter_at_detail _ _ Htag).
  by destruct (element_to_records element None).
Qed.

Lemma xml_to_records_issuer root element asof :
  find root (RATINGS_NAMESPACE +:+ "ISD") = Some element ->
  xml_to_records root "issuer" (Some asof) =
  let* subs := sub_records (Some (filter_asof asof))
                 (items (Some (RATINGS_NAMESPACE +:+ "IND")) (children element)) in
  Ok (attach (findtext root (RATINGS_NAMESPACE +:+ "RAN"))
             (findtext root (RATINGS_NAMESPACE +:+ "FCD"))
        <$> ((fun sub => record_update sub (shared_context element)) <$> subs)).
Proof.
  intros Hfind.
  assert (Htag : tag element = RATINGS_NAMESPACE +:+ "ISD").
  { by apply find_Some in Hfind as (_ & _ & _ & -> & _). }
  rewrite (xml_to_records_found _ "issuer" (RATINGS_NAMESPACE +:+ "ISD") _ _
             eq_refl Hfind).
  cbn [fmap option_fmap option_map].
  rewrite (element_to_records_isd _ _ Htag).
  by destruct (sub_records _ _).
Qed.

(** C9, as the code has it: for a fixed document and cutoffs [d' <= d], the
    extraction with cutoff [d'] returns for each (rating type, subtype,
    term) key no more records than the extraction with cutoff [d], and no
    more records in all.  No returned date exceeds the cutoff used for an
    obligor document, and for an issuer document whose issuer detail has no
    [RAD] leaf of its own outside its instruments; such a leaf is written
    into every record after the filter has run. *)
Theorem C9_filter_asof_monotone (root : Element) (rating_type : string)
    (d' d : date) (out' out : list (gmap string (option string))) :
  date_ltb d d' = false ->
  xml_to_records root rating_type (Some d') = Ok out' ->
  xml_to_records root rating_type (Some d) = Ok out ->
  (forall k, group_size k out' <= group_size k out)
  /\ length out' <= length out
  /\ (rating_type = "obligor" ->
        (forall r, r ∈ out' ->
           exists rad, record_rad r = Ok rad /\ date_ltb d' rad = false)
        /\ (forall r, r ∈ out ->
              exists rad, record_rad r = Ok rad /\ date_ltb d rad = false))
  /\ (forall element,
        rating_type = "issuer" ->
        find root (RATINGS_NAMESPACE +:+ "ISD") = Some element ->
        shared_context element !! "RAD" = None ->
        (forall r, r ∈ out' ->
           exists rad, record_rad r = Ok rad /\ date_ltb d' rad = false)
        /\ (forall r, r ∈ out ->
              exists rad, record_rad r = Ok rad /\ date_ltb d rad = false)).
Proof.
  intros Hdd Hout' Hout.
  assert (Hfewer : fewer_by_key out' out
    /\ (rating_type = "obligor" ->
          (forall r, r ∈ out' ->
             exists rad, record_rad r = Ok rad /\ date_ltb d' rad = false)
          /\ (forall r, r ∈ out ->
                exists rad, record_rad r = Ok rad /\ date_ltb d rad = false))
    /\ (forall element,
          rating_type = "issuer" ->
          find root (RATINGS_NAMESPACE +:+ "ISD") = Some element ->
          shared_context element !! "RAD" = None ->
          (forall r, r ∈ out' ->
             exists rad, record_rad r = Ok rad /\ date_ltb d' rad = false)
          /\ (forall r, r ∈ out ->
                exists rad, record_rad r = Ok rad /\ date_ltb d rad = false))).
  { destruct (decide (rating_type = "obligor")) as [->|Hobl];
      [|destruct (decide (rating_type = "issuer")) as [->|Hiss]].
    - destruct (find root (RATINGS_NAMESPACE +:+ "OD")) as [element|] eqn:Hfind.
      + assert (Htag : tag element ∈ rating_detail_tags).
        { apply find_Some in Hfind as (_ & _ & _ & -> & _). left. }
        rewrite (xml_to_records_obligor _ _ d' Hfind) in Hout'.
        rewrite (xml_to_records_obligor _ _ d Hfind) in Hout.
        destruct (element_to_records element None) as [flat|]; [|done].
        cbn [bind] in Hout', Hout.
        destruct (filter_asof d' flat element) as [kept'|] eqn:Hkept'; [|done].
        destruct (filter_asof d flat element) as [kept|] eqn:Hkept; [|done].
        cbn [bind] in Hout', Hout. injection Hout' as <-. injection Hout as <-.
        split_and!.
        * apply fewer_by_key_fmap.
          -- intros r1 r2 Hkey. by rewrite !rating_key_attach.
          -- by eapply fewer_by_key_filter.
        * intros _. split; intros r (r0 & -> & Hr0)%list_elem_of_fmap;
            rewrite record_rad_attach.
          -- by eapply (filter_asof_not_after d' flat element).
          -- by eapply (filter_asof_not_after d flat element).
        * done.
      + rewrite (xml_to_records_absent _ "obligor" _ (Some d') eq_refl Hfind) in Hout'.
        rewrite (xml_to_records_absent _ "obligor" _ (Some d) eq_refl Hfind) in Hout.
        injection Hout' as <-. injection Hout as <-.
        split_and!; [apply fewer_by_key_refl| |done].
        intros _. split; by intros r ?%elem_of_nil.
    - destruct (find root (RATINGS_NAMESPACE +:+ "ISD")) as [element|] eqn:Hfind.
      + rewrite (xml_to_records_issuer _ _ d' Hfind) in Hout'.
        rewrite (xml_to_records_issuer _ _ d Hfind) in Hout.
        destruct (sub_records (Some (filter_asof d')) _) as [subs'|] eqn:Hsubs';
          [|done].
        destruct (sub_records (Some (filter_asof d)) _) as [subs|] eqn:Hsubs;
          [|done].
        cbn [bind] in Hout', Hout. injection Hout' as <-. injection Hout as <-.
        destruct (sub_records_fewer d' d
                    (items (Some (RATINGS_NAMESPACE +:+ "IND")) (children element))
                    subs' subs Hdd) as (Hfewer & Hb' & Hb); [|done..|].
        { intros it ->%items_tag. right. left. }
        split_and!.
        * apply fewer_by_key_fmap.
          -- intros r1 r2 Hkey. by rewrite !rating_key_attach.
          -- apply fewer_by_key_fmap; [|done].
             intros r1 r2. apply rating_key_update.
        * done.
        * intros element' _ [= <-] Hctx.
          split; intros r (r1 & -> & (r0 & -> & Hr0)%list_elem_of_fmap)%list_elem_of_fmap;
            rewrite record_rad_attach, record_rad_update by done; auto.
      + rewrite (xml_to_records_absent _ "issuer" _ (Some d') eq_refl Hfind) in Hout'.
        rewrite (xml_to_records_absent _ "issuer" _ (Some d) eq_refl Hfind) in Hout.
        injection Hout' as <-. injection Hout as <-.
        split_and!; [apply fewer_by_key_refl|done|].
        intros element' _ [=].
    - unfold xml_to_records in Hout.
      by rewrite !bool_decide_eq_false_2 in Hout by done. }
  destruct Hfewer as (Hfewer & Hobl & Hiss). split_and!; [|by apply fewer_by_key_length|done..].
  intros k. by apply fewer_by_key_group_size.
Qed.

(** ** The CSV export driver *)

Lemma fieldnames_of_type_fields rating_type fieldnames :
  fieldnames_of rating_type = Ok fieldnames ->
  exists type_fields,
    type_fields_of rating_type = Some type_fields
    /\ fieldnames = (AGENCY_FIELDS ++ type_fields ++ RATING_FIELDS).*1.
Proof.
  unfold fieldnames_of, type_fields_of.
  repeat case_bool_decide; intros [= <-]; eexists; (split; [done|]);
    vm_compute; reflexivity.
Qed.

Lemma dict_to_list_Ok fieldnames (r : gmap string (option string)) :
  dom r ⊆ list_to_set fieldnames ->
  dict_to_list fieldnames r = Ok (render fieldnames r).
Proof. intros Hdom. unfold dict_to_list. by rewrite bool_decide_eq_true_2. Qed.

Lemma dict_to_list_extra fieldnames (r : gmap string (option string)) key :
  is_Some (r !! key) -> key ∉ fieldnames ->
  dict_to_list fieldnames r = Raise ValueError.
Proof.
  intros Hkey Hnot. unfold dict_to_list. rewrite bool_decide_eq_false_2; [done|].
  intros Hsub. apply Hnot. apply elem_of_dom in Hkey.
  apply Hsub in Hkey. by apply elem_of_list_to_set in Hkey.
Qed.

Lemma dict_to_list_inv fieldnames (r : gmap string (option string)) row :
  dict_to_list fieldnames r = Ok row -> row = render fieldnames r.
Proof. unfold dict_to_list. case_bool_decide; [by intros [= <-]|done]. Qed.

Section CsvExportFacts.
Variable encodable : list string -> bool.
Implicit Types (csv_file rows : list (list string)) (fieldnames : list string).

Lemma writerows_rows fieldnames records : forall csv_file csv_file' res,
  writerows encodable fieldnames csv_file records = (csv_file', res) ->
  exists rows, csv_file' = csv_file ++ rows /\ Forall (rendered fieldnames) rows.
Proof.
  induction records as [|r records IH]; intros csv_file csv_file' res;
    cbn [writerows].
  - intros [= <- <-]. exists []. by rewrite app_nil_r.
  - destruct (dict_to_list fieldnames r) as [row|] eqn:Hrow.
    + apply dict_to_list_inv in Hrow as ->. unfold writerow.
      destruct (encodable _).
      * intros (rows & -> & Hrows)%IH. exists (render fieldnames r :: rows).
        split; [by rewrite <- app_assoc|]. apply Forall_cons. split; [by exists r|done].
      * intros [= <- <-]. exists []. by rewrite app_nil_r.
    + intros [= <- <-]. exists []. by rewrite app_nil_r.
Qed.

Lemma process_entry_rows fieldnames rating_type asof csv_file entry csv_file' res :
  process_entry encodable fieldnames rating_type asof csv_file entry
    = (csv_file', res) ->
  exists rows, csv_file' = csv_file ++ rows /\ Forall (rendered fieldnames) rows.
Proof.
  unfold process_entry.
  destruct (parsed entry) as [root|];
    [destruct (xml_to_records root rating_type asof) as [records|]|].
  - apply writerows_rows.
  - intros [= <- <-]. exists []. by rewrite app_nil_r.
  - intros [= <- <-]. exists []. by rewrite app_nil_r.
Qed.

Lemma process_entries_rows fieldnames rating_type asof zip_file :
  forall csv_file csv_file' res,
  process_entries encodable fieldnames rating_type asof csv_file zip_file
    = (csv_file', res) ->
  exists rows, csv_file' = csv_file ++ rows /\ Forall (rendered fieldnames) rows.
Proof.
  induction zip_file as [|entry zip_file IH]; intros csv_file csv_file' res;
    cbn [process_entries].
  - intros [= <- <-]. exists []. by rewrite app_nil_r.
  - destruct (negb _); [apply IH|].
    destruct (process_entry _ _ _ _ _ _) as [csv1 res1] eqn:Hentry.
    apply process_entry_rows in Hentry as (rows1 & -> & Hrows1).
    assert (Hcont : forall res,
      process_entries encodable fieldnames rating_type asof
        (csv_file ++ rows1) zip_file = (csv_file', res) ->
      exists rows, csv_file' = csv_file ++ rows /\ Forall (rendered fieldnames) rows).
    { intros res' (rows2 & -> & Hrows2)%IH. exists (rows1 ++ rows2).
      split; [by rewrite app_assoc|by apply Forall_app]. }
    destruct res1 as [[]|[]]; try (intros [= <- <-]; by exists rows1); apply Hcont.
Qed.

Lemma process_entries_app fieldnames rating_type asof before after :
  forall csv_file,
  process_entries encodable fieldnames rating_type asof csv_file (before ++ after) =
  match process_entries encodable fieldnames rating_type asof csv_file before with
  | (csv_file', Ok _) =>
      process_entries encodable fieldnames rating_type asof csv_file' after
  | (csv_file', Raise e) => (csv_file', Raise e)
  end.
Proof.
  induction before as [|entry before IH]; intros csv_file;
    cbn [process_entries app]; [done|].
  destruct (negb _); [apply IH|].
  destruct (process_entry _ _ _ _ _ _) as [csv1 [[]|[]]]; try done; apply IH.
Qed.

(** The rows of the records before a record with an extra key are written,
    and the record itself raises a [ValueError]. *)
Lemma writerows_extra fieldnames pre (r : gmap string (option string)) post key :
  forall csv_file,
  (forall r', r' ∈ pre ->
     dom r' ⊆ list_to_set fieldnames /\ encodable (render fieldnames r') = true) ->
  is_Some (r !! key) -> key ∉ fieldnames ->
  writerows encodable fieldnames csv_file (pre ++ r :: post)
  = (csv_file ++ (render fieldnames <$> pre), Raise ValueError).
Proof.
  intros csv_file Hpre Hkey Hnot. revert csv_file.
  induction pre as [|r' pre IH]; intros csv_file; cbn [writerows app].
  - rewrite (dict_to_list_extra _ _ key) by done. by rewrite app_nil_r.
  - destruct (Hpre r') as [Hdom Henc]; [left|].
    rewrite dict_to_list_Ok by done. unfold writerow. rewrite Henc.
    rewrite IH by (intros; apply Hpre; by right).
    by rewrite fmap_cons, <- app_assoc.
Qed.

(** The rows of the records before a record that cannot be encoded are
    written, and the record itself raises a [UnicodeEncodeError]. *)
Lemma writerows_unencodable fieldnames pre (r : gmap string (option string)) post :
  forall csv_file,
  (forall r', r' ∈ pre ->
     dom r' ⊆ list_to_set fieldnames /\ encodable (render fieldnames r') = true) ->
  dom r ⊆ list_to_set fieldnames -> encodable (render fieldnames r) = false ->
  writerows encodable fieldnames csv_file (pre ++ r :: post)
  = (csv_file ++ (render fieldnames <$> pre), Raise UnicodeEncodeError).
Proof.
  intros csv_file Hpre Hdom Henc. revert csv_file.
  induction pre as [|r' pre IH]; intros csv_file; cbn [writerows app].
  - rewrite dict_to_list_Ok by done. unfold writerow. rewrite Henc.
    by rewrite app_nil_r.
  - destruct (Hpre r') as [Hdom' Henc']; [left|].
    rewrite dict_to_list_Ok by done. unfold writerow. rewrite Henc'.
    rewrite IH by (intros; apply Hpre; by right).
    by rewrite fmap_cons, <- app_assoc.
Qed.

Lemma ratings_to_csv_run zip_file rating_type asof fieldnames :
  fieldnames_of rating_type = Ok fieldnames -> encodable fieldnames = true ->
  ratings_to_csv encodable zip_file rating_type asof =
  (Some (process_entries encodable fieldnames rating_type asof [fieldnames] zip_file).1,
   (process_entries encodable fieldnames rating_type asof [fieldnames] zip_file).2).
Proof.
  intros Hfn Henc. unfold ratings_to_csv, writerow. by rewrite Hfn, Henc.
Qed.
End CsvExportFacts.


(** C10: a record with a key outside the field names of the rating type
    makes the writer raise a [ValueError] when it comes to it, which the
    skip of the entry does not catch: the run ends there, the later entries
    are not read.  A record whose keys are all field names is written with
    an empty cell for every field name that it lacks. *)
Theorem C10_extra_key_aborts_missing_key_is_empty
    (encodable : list string -> bool) (before rest : list ZipEntry)
    (entry : ZipEntry) (rating_type : string) (asof : option date)
    (fieldnames : list string) (csv_file : list (list string)) (root : Element)
    (pre post : list (gmap string (option string)))
    (r : gmap string (option string)) (key : string) :
  fieldnames_of rating_type = Ok fieldnames ->
  encodable fieldnames = true ->
  process_entries encodable fieldnames rating_type asof [fieldnames] before
    = (csv_file, Ok ()) ->
  endswith (filename entry) ".xml" = true ->
  parsed entry = Ok root ->
  xml_to_records root rating_type asof = Ok (pre ++ r :: post) ->
  (forall r', r' ∈ pre ->
     dom r' ⊆ list_to_set fieldnames /\ encodable (render fieldnames r') = true) ->
  is_Some (r !! key) -> key ∉ fieldnames ->
  ratings_to_csv encodable (before ++ entry :: rest) rating_type asof
    = (Some (csv_file ++ (render fieldnames <$> pre)), Raise ValueError)
  /\ (forall r' : gmap string (option string),
        dom r' ⊆ list_to_set fieldnames ->
        dict_to_list fieldnames r' = Ok (render fieldnames r')
        /\ (forall i k, fieldnames !! i = Some k -> r' !! k = None ->
              render fieldnames r' !! i = Some "")
        /\ (encodable (render fieldnames r') = true ->
            forall csv_file',
              writerows encodable fieldnames csv_file' [r']
              = (csv_file' ++ [render fieldnames r'], Ok ()))).
Proof.
  intros Hfn Henc Hbefore Hxml Hparsed Hrecords Hpre Hkey Hnot. split.
  - rewrite (ratings_to_csv_run _ _ _ _ _ Hfn Henc), process_entries_app, Hbefore.
    cbn [process_entries]. rewrite Hxml. cbn [negb].
    unfold process_entry. rewrite Hparsed, Hrecords.
    by rewrite (writerows_extra _ _ _ _ _ key).
  - intros r' Hdom. split_and!.
    + by apply dict_to_list_Ok.
    + intros i k Hi Hk. unfold render. by rewrite list_lookup_fmap, Hi; cbn; rewrite Hk.
    + intros Henc' csv_file'. cbn [writerows].
      rewrite dict_to_list_Ok by done. unfold writerow. by rewrite Henc'.
Qed.

(** C4, as the code has it: the failure that the driver swallows for an
    entry is a [UnicodeEncodeError], the one that writing a row raises when
    the encoding of the output file cannot encode it: the rows of the entry
    written before it stay, and the run goes on with the entries after it.
    An exception of another class raised by reading the entry, as the parse
    error of bytes that cannot be decoded or are not well-formed XML, ends
    the run there. *)
Theorem C4_only_unicode_encode_error_is_skipped
    (encodable : list string -> bool) (before rest : list ZipEntry)
    (entry : ZipEntry) (rating_type : string) (asof : option date)
    (fieldnames : list string) (csv_file : list (list string)) :
  fieldnames_of rating_type = Ok fieldnames ->
  encodable fieldnames = true ->
  process_entries encodable fieldnames rating_type asof [fieldnames] before
    = (csv_file, Ok ()) ->
  endswith (filename entry) ".xml" = true ->
  (forall csv_file',
     process_entry encodable fieldnames rating_type asof csv_file entry
       = (csv_file', Raise UnicodeEncodeError) ->
     ratings_to_csv encodable (before ++ entry :: rest) rating_type asof
       = (Some (process_entries encodable fieldnames rating_type asof
                  csv_file' rest).1,
          (process_entries encodable fieldnames rating_type asof
             csv_file' rest).2))
  /\ (forall root pre (r : gmap string (option string)) post,
        parsed entry = Ok root ->
        xml_to_records root rating_type asof = Ok (pre ++ r :: post) ->
        (forall r', r' ∈ pre ->
           dom r' ⊆ list_to_set fieldnames
           /\ encodable (render fieldnames r') = true) ->
        dom r ⊆ list_to_set fieldnames ->
        encodable (render fieldnames r) = false ->
        process_entry encodable fieldnames rating_type asof csv_file entry
          = (csv_file ++ (render fieldnames <$> pre), Raise UnicodeEncodeError))
  /\ (parsed entry = Raise UnicodeEncodeError ->
        process_entry encodable fieldnames rating_type asof csv_file entry
          = (csv_file, Raise UnicodeEncodeError))
  /\ (forall e, parsed entry = Raise e -> e ≠ UnicodeEncodeError ->
        ratings_to_csv encodable (before ++ entry :: rest) rating_type asof
          = (Some csv_file, Raise e)).
Proof.
  intros Hfn Henc Hbefore Hxml. split_and!.
  - intros csv_file' Hentry.
    rewrite (ratings_to_csv_run _ _ _ _ _ Hfn Henc), process_entries_app, Hbefore.
    cbn [process_entries]. rewrite Hxml. cbn [negb]. by rewrite Hentry.
  - intros root pre r post Hparsed Hrecords Hpre Hdom Hr.
    unfold process_entry. rewrite Hparsed, Hrecords.
    by apply writerows_unencodable.
  - intros Hparsed. unfold process_entry. by rewrite Hparsed.
  - intros e Hparsed He.
    rewrite (ratings_to_csv_run _ _ _ _ _ Hfn Henc), process_entries_app, Hbefore.
    cbn [process_entries]. rewrite Hxml. cbn [negb].
    unfold process_entry. rewrite Hparsed. by destruct e.
Qed.

(** * The claims on sample documents *)

(** The obligor of [collision_od] has a rating with [R = "A"] and its own
    leaf [R = "B"]: the record returned holds ["B"], the value of the shared
    context, and not the value of the sub-record. *)
Lemma C1_counterexample_shared_context_wins :
  SEQUENCE_TAGS !! tag collision_od = Some (qname "ORD")
  /\ sub_records None (items (Some (qname "ORD")) (children collision_od))
     = Ok [{[ "R" := Some "A" ]}]
  /\ shared_context collision_od = {[ "R" := Some "B" ]}
  /\ element_to_records collision_od None = Ok [{[ "R" := Some "B" ]}].
Proof. split_and!; vm_compute; reflexivity. Qed.

(** The two records of [sample_od] are sub-records updated with its shared
    context. *)
Lemma C1_witness :
  exists subs,
    sub_records None (items (Some (qname "ORD")) (children sample_od)) = Ok subs
    /\ forall r, r ∈ [ record_of [("OBNAME", Some "Obligor Inc"); ("R", Some "BBB");
                                  ("RAD", Some "2022-06-01"); ("RT", Some "LT")];
                       record_of [("OBNAME", Some "Obligor Inc"); ("R", Some "A");
                                  ("RAD", Some "2023-06-01"); ("RT", Some "LT")] ] ->
         exists sub, sub ∈ subs /\ r = record_update sub (shared_context sample_od).
Proof.
  destruct (C1_records_updated_with_shared_context sample_od (qname "ORD") None
    [ record_of [("OBNAME", Some "Obligor Inc"); ("R", Some "BBB");
                 ("RAD", Some "2022-06-01"); ("RT", Some "LT")];
      record_of [("OBNAME", Some "Obligor Inc"); ("R", Some "A");
                 ("RAD", Some "2023-06-01"); ("RT", Some "LT")] ])
    as (subs & Hsubs & Hout & _).
  - vm_compute. reflexivity.
  - vm_compute. reflexivity.
  - exists subs. split; [exact Hsubs|exact Hout].
Defined.

(** The filter on three records, one of them after the cutoff. *)
Lemma C2_witness :
  tag sample_od ∈ rating_detail_tags
  /\ NoDup (rating_key <$>
              [ record_of [("R", Some "BBB"); ("RAD", Some "2022-06-01")];
                record_of [("R", Some "B"); ("RAD", Some "2021-01-01"); ("RT", Some "ST")] ]).
Proof.
  assert (Htag : tag sample_od ∈ rating_detail_tags) by (vm_compute; left).
  split; [exact Htag|].
  destruct (C2_filter_asof_latest_per_key (mkdate 2022 12 31)
    [ record_of [("R", Some "BBB"); ("RAD", Some "2022-06-01")];
      record_of [("R", Some "A"); ("RAD", Some "2023-06-01")];
      record_of [("R", Some "B"); ("RAD", Some "2021-01-01"); ("RT", Some "ST")] ]
    sample_od Htag) as [_ Hout].
  destruct (Hout
    [ record_of [("R", Some "BBB"); ("RAD", Some "2022-06-01")];
      record_of [("R", Some "B"); ("RAD", Some "2021-01-01"); ("RT", Some "ST")] ])
    as (_ & Hkeys & _).
  - vm_compute. reflexivity.
  - exact Hkeys.
Defined.

(** The two ratings of [tie_od] have the same key and the same date, not
    after the cutoff: the filter returns the first of them, the one with
    [R = "A"], and not the one met later. *)
Lemma C3_counterexample_first_of_tie_is_kept :
  sub_records (Some (filter_asof (mkdate 2022 12 31)))
    (items (Some (qname "ORD")) (children tie_od))
  = Ok [ record_of [("R", Some "A"); ("RAD", Some "2022-06-01"); ("RT", Some "LT")];
         record_of [("R", Some "B"); ("RAD", Some "2022-06-01"); ("RT", Some "LT")] ]
  /\ filter_asof (mkdate 2022 12 31)
       [ record_of [("R", Some "A"); ("RAD", Some "2022-06-01"); ("RT", Some "LT")];
         record_of [("R", Some "B"); ("RAD", Some "2022-06-01"); ("RT", Some "LT")] ]
       tie_od
     = Ok [ record_of [("R", Some "A"); ("RAD", Some "2022-06-01"); ("RT", Some "LT")] ]
  /\ element_to_records tie_od (Some (filter_asof (mkdate 2022 12 31)))
     = Ok [ record_of [("R", Some "A"); ("RAD", Some "2022-06-01"); ("RT", Some "LT")] ].
Proof. split_and!; vm_compute; reflexivity. Qed.

(** The first of the two records of the tie is the first of the latest, and
    so it is returned. *)
Lemma C3_witness :
  tag tie_od ∈ rating_detail_tags
  /\ (record_of [("R", Some "A"); ("RAD", Some "2022-06-01"); ("RT", Some "LT")]
       ∈ [ record_of [("R", Some "A"); ("RAD", Some "2022-06-01"); ("RT", Some "LT")] ]
     <-> first_latest (mkdate 2022 12 31)
           [ record_of [("R", Some "A"); ("RAD", Some "2022-06-01"); ("RT", Some "LT")];
             record_of [("R", Some "B"); ("RAD", Some "2022-06-01"); ("RT", Some "LT")] ]
           (record_of [("R", Some "A"); ("RAD", Some "2022-06-01"); ("RT", Some "LT")])).
Proof.
  assert (Htag : tag tie_od ∈ rating_detail_tags) by (vm_compute; left).
  split; [exact Htag|].
  apply (C3_filter_asof_tie_keeps_first (mkdate 2022 12 31)
    [ record_of [("R", Some "A"); ("RAD", Some "2022-06-01"); ("RT", Some "LT")];
      record_of [("R", Some "B"); ("RAD", Some "2022-06-01"); ("RT", Some "LT")] ]
    [ record_of [("R", Some "A"); ("RAD", Some "2022-06-01"); ("RT", Some "LT")] ]
    tie_od Htag).
  vm_compute. reflexivity.
Defined.

(** The issuer detail of [dated_isd_root] has a date leaf of its own, of
    2030: as of the end of 2020 the one rating of its instrument, of May
    2020, is kept, and its record comes out with the date 2030-01-01, after
    the cutoff. *)
Lemma C9_counterexample_issuer_date_leaf_after_cutoff :
  xml_to_records dated_isd_root "issuer" (Some (mkdate 2020 12 31))
  = Ok [record_of [("RAN", None); ("FCD", None); ("R", Some "AA");
                   ("RAD", Some "2030-01-01")]]
  /\ record_rad (record_of [("RAN", None); ("FCD", None); ("R", Some "AA");
                            ("RAD", Some "2030-01-01")])
     = Ok (mkdate 2030 1 1)
  /\ date_ltb (mkdate 2020 12 31) (mkdate 2030 1 1) = true.
Proof. split_and!; vm_compute; reflexivity. Qed.

(** [sample_root] as of the end of 2022 and of 2023: one record of the key
    either way. *)
Lemma C9_witness :
  date_ltb (mkdate 2023 12 31) (mkdate 2022 12 31) = false
  /\ forall k,
       group_size k
         [record_of [("RAN", Some "ACME Ratings"); ("FCD", Some "2023-01-01");
                     ("OBNAME", Some "Obligor Inc"); ("R", Some "BBB");
                     ("RAD", Some "2022-06-01"); ("RT", Some "LT")]]
       <= group_size k
            [record_of [("RAN", Some "ACME Ratings"); ("FCD", Some "2023-01-01");
                        ("OBNAME", Some "Obligor Inc"); ("R", Some "A");
                        ("RAD", Some "2023-06-01"); ("RT", Some "LT")]].
Proof.
  split; [reflexivity|].
  destruct (C9_filter_asof_monotone sample_root "obligor"
    (mkdate 2022 12 31) (mkdate 2023 12 31)
    [record_of [("RAN", Some "ACME Ratings"); ("FCD", Some "2023-01-01");
                ("OBNAME", Some "Obligor Inc"); ("R", Some "BBB");
                ("RAD", Some "2022-06-01"); ("RT", Some "LT")]]
    [record_of [("RAN", Some "ACME Ratings"); ("FCD", Some "2023-01-01");
                ("OBNAME", Some "Obligor Inc"); ("R", Some "A");
                ("RAD", Some "2023-06-01"); ("RT", Some "LT")]])
    as (Hgroups & _).
  - reflexivity.
  - vm_compute. reflexivity.
  - vm_compute. reflexivity.
  - exact Hgroups.
Defined.

(** The instrument of [collision_ind] has one rating, whose own fields are
    [R = "AA"] and [RAD = "2020-05-05"], and its own leaf [RAD]: the one
    record returned does not hold the [RAD] of the item. *)
Lemma C6_counterexample_item_field_overwritten :
  SEQUENCE_TAGS !! tag collision_ind = Some (qname "IRD")
  /\ SEQUENCE_TAGS !! qname "IRD" = None
  /\ items (Some (qname "IRD")) (children collision_ind)
     = [Elem (qname "IRD") None [leaf "R" "AA"; leaf "RAD" "2020-05-05"]]
  /\ shared_context (Elem (qname "IRD") None [leaf "R" "AA"; leaf "RAD" "2020-05-05"])
     = record_of [("R", Some "AA"); ("RAD", Some "2020-05-05")]
  /\ element_to_records collision_ind None
     = Ok [record_of [("R", Some "AA"); ("RAD", Some "2001-01-01")]].
Proof. split_and!; vm_compute; reflexivity. Qed.

(** The obligor of [sample_od] gives one record for each of its ratings. *)
Lemma C6_witness :
  length [ record_of [("OBNAME", Some "Obligor Inc"); ("R", Some "BBB");
                      ("RAD", Some "2022-06-01"); ("RT", Some "LT")];
           record_of [("OBNAME", Some "Obligor Inc"); ("R", Some "A");
                      ("RAD", Some "2023-06-01"); ("RT", Some "LT")] ]
  = length (items (Some (qname "ORD")) (children sample_od)).
Proof.
  destruct (C6_one_record_per_item sample_od (qname "ORD")
    [ record_of [("OBNAME", Some "Obligor Inc"); ("R", Some "BBB");
                 ("RAD", Some "2022-06-01"); ("RT", Some "LT")];
      record_of [("OBNAME", Some "Obligor Inc"); ("R", Some "A");
                 ("RAD", Some "2023-06-01"); ("RT", Some "LT")] ])
    as (_ & Hlength & _); [vm_compute; reflexivity..|].
  exact Hlength.
Defined.

(** The record of [sample_root] as of the end of 2022 carries the agency
    name and the file creation date of the document. *)
Lemma C7_witness :
  root_tag_of "obligor" = Some (qname "OD")
  /\ xml_to_records sample_root "obligor" (Some (mkdate 2022 12 31))
     = Ok ((fun r : gmap string (option string) =>
              <["FCD" := findtext sample_root (RATINGS_NAMESPACE +:+ "FCD")]>
                (<["RAN" := findtext sample_root (RATINGS_NAMESPACE +:+ "RAN")]> r))
             <$> [record_of [("OBNAME", Some "Obligor Inc"); ("R", Some "BBB");
                             ("RAD", Some "2022-06-01"); ("RT", Some "LT")]]).
Proof.
  split; [vm_compute; reflexivity|].
  destruct (C7_xml_to_records_root_and_agency_fields sample_root "obligor"
              (qname "OD") (Some (mkdate 2022 12 31))) as (_ & _ & Hfound).
  - vm_compute. reflexivity.
  - apply (Hfound sample_od); vm_compute; reflexivity.
Defined.

(** In [repeat_od] the leaf [OSC] occurs twice; the later one, inside a
    group, gives the shared context its value. *)
Lemma C8_witness :
  shared_context repeat_od !! slice_from 40 (tag (leaf "OSC" "second"))
  = Some (text (leaf "OSC" "second")).
Proof.
  apply (C8_worklist_in_document_order None repeat_od
           [leaf "OSC" "first"] [leaf "OBNAME" "Obligor Inc"] (leaf "OSC" "second")).
  - vm_compute. reflexivity.
  - intros e ->%list_elem_of_singleton. vm_compute. discriminate.
Defined.



(** The first entry is not well-formed XML: the run ends with the parse
    error, and the document of the second entry, which alone gives two rows,
    is not read. *)
Lemma C4_counterexample_parse_error_aborts :
  ratings_to_csv all_encodable
    [mkZipEntry "bad.xml" (Raise ParseError); mkZipEntry "a.xml" (Ok sample_root)]
    "obligor" None
  = (Some [["RAN"; "FCD"; "OSC"; "OIG"; "OBNAME"; "LEI"; "CIK"; "OI"; "OIS";
            "OIOS"; "IP"; "R"; "RAD"; "RAC"; "WST"; "ROL"; "OAN"; "RT"; "RST";
            "RTT"]], Raise ParseError)
  /\ ratings_to_csv all_encodable [mkZipEntry "a.xml" (Ok sample_root)]
       "obligor" None
     = (Some [["RAN"; "FCD"; "OSC"; "OIG"; "OBNAME"; "LEI"; "CIK"; "OI"; "OIS";
               "OIOS"; "IP"; "R"; "RAD"; "RAC"; "WST"; "ROL"; "OAN"; "RT"; "RST";
               "RTT"];
              ["ACME Ratings"; "2023-01-01"; ""; ""; "Obligor Inc"; ""; ""; "";
               ""; ""; ""; "BBB"; "2022-06-01"; ""; ""; ""; ""; "LT"; ""; ""];
              ["ACME Ratings"; "2023-01-01"; ""; ""; "Obligor Inc"; ""; ""; "";
               ""; ""; ""; "A"; "2023-06-01"; ""; ""; ""; ""; "LT"; ""; ""]],
        Ok ()).
Proof. split; vm_compute; reflexivity. Qed.

(** With an encoder for ASCII only, the row of [accent_root] cannot be
    written: the entry is skipped and the next one gives its two rows. *)
Lemma C4_witness :
  ratings_to_csv ascii_encodable
    [mkZipEntry "b.xml" (Ok accent_root); mkZipEntry "a.xml" (Ok sample_root)]
    "obligor" None
  = (Some [["RAN"; "FCD"; "OSC"; "OIG"; "OBNAME"; "LEI"; "CIK"; "OI"; "OIS";
            "OIOS"; "IP"; "R"; "RAD"; "RAC"; "WST"; "ROL"; "OAN"; "RT"; "RST";
            "RTT"];
           ["ACME Ratings"; "2023-01-01"; ""; ""; "Obligor Inc"; ""; ""; "";
            ""; ""; ""; "BBB"; "2022-06-01"; ""; ""; ""; ""; "LT"; ""; ""];
           ["ACME Ratings"; "2023-01-01"; ""; ""; "Obligor Inc"; ""; ""; "";
            ""; ""; ""; "A"; "2023-06-01"; ""; ""; ""; ""; "LT"; ""; ""]],
     Ok ()).
Proof.
  destruct (C4_only_unicode_encode_error_is_skipped ascii_encodable []
    [mkZipEntry "a.xml" (Ok sample_root)] (mkZipEntry "b.xml" (Ok accent_root))
    "obligor" None
    ["RAN"; "FCD"; "OSC"; "OIG"; "OBNAME"; "LEI"; "CIK"; "OI"; "OIS";
     "OIOS"; "IP"; "R"; "RAD"; "RAC"; "WST"; "ROL"; "OAN"; "RT"; "RST"; "RTT"]
    [["RAN"; "FCD"; "OSC"; "OIG"; "OBNAME"; "LEI"; "CIK"; "OI"; "OIS";
      "OIOS"; "IP"; "R"; "RAD"; "RAC"; "WST"; "ROL"; "OAN"; "RT"; "RST"; "RTT"]])
    as (Hskip & _ & _ & _).
  - vm_compute. reflexivity.
  - vm_compute. reflexivity.
  - vm_compute. reflexivity.
  - vm_compute. reflexivity.
  - cbn [app] in Hskip. rewrite (Hskip _ ltac:(vm_compute; reflexivity)).
    vm_compute. reflexivity.
Defined.

(** The second record of [extra_root] has the key [XYZ]: the run ends on
    it, after the row of its first record, and the third entry is not read. *)
Lemma C10_witness :
  ratings_to_csv all_encodable
    [mkZipEntry "a.xml" (Ok sample_root); mkZipEntry "b.xml" (Ok extra_root);
     mkZipEntry "c.xml" (Ok sample_root)]
    "obligor" None
  = (Some [["RAN"; "FCD"; "OSC"; "OIG"; "OBNAME"; "LEI"; "CIK"; "OI"; "OIS";
            "OIOS"; "IP"; "R"; "RAD"; "RAC"; "WST"; "ROL"; "OAN"; "RT"; "RST";
            "RTT"];
           ["ACME Ratings"; "2023-01-01"; ""; ""; "Obligor Inc"; ""; ""; "";
            ""; ""; ""; "BBB"; "2022-06-01"; ""; ""; ""; ""; "LT"; ""; ""];
           ["ACME Ratings"; "2023-01-01"; ""; ""; "Obligor Inc"; ""; ""; "";
            ""; ""; ""; "A"; "2023-06-01"; ""; ""; ""; ""; "LT"; ""; ""];
           [""; ""; ""; ""; ""; ""; ""; ""; ""; ""; ""; "C"; ""; ""; ""; ""; "";
            ""; ""; ""]],
     Raise ValueError).
Proof.
  destruct (C10_extra_key_aborts_missing_key_is_empty all_encodable
    [mkZipEntry "a.xml" (Ok sample_root)] [mkZipEntry "c.xml" (Ok sample_root)]
    (mkZipEntry "b.xml" (Ok extra_root)) "obligor" None
    ["RAN"; "FCD"; "OSC"; "OIG"; "OBNAME"; "LEI"; "CIK"; "OI"; "OIS";
     "OIOS"; "IP"; "R"; "RAD"; "RAC"; "WST"; "ROL"; "OAN"; "RT"; "RST"; "RTT"]
    [["RAN"; "FCD"; "OSC"; "OIG"; "OBNAME"; "LEI"; "CIK"; "OI"; "OIS";
      "OIOS"; "IP"; "R"; "RAD"; "RAC"; "WST"; "ROL"; "OAN"; "RT"; "RST"; "RTT"];
     ["ACME Ratings"; "2023-01-01"; ""; ""; "Obligor Inc"; ""; ""; "";
      ""; ""; ""; "BBB"; "2022-06-01"; ""; ""; ""; ""; "LT"; ""; ""];
     ["ACME Ratings"; "2023-01-01"; ""; ""; "Obligor Inc"; ""; ""; "";
      ""; ""; ""; "A"; "2023-06-01"; ""; ""; ""; ""; "LT"; ""; ""]]
    extra_root
    [record_of [("R", Some "C"); ("RAN", None); ("FCD", None)]] []
    (record_of [("R", Some "D"); ("XYZ", Some "?"); ("RAN", None); ("FCD", None)])
    "XYZ") as [Hrun _].
  - vm_compute. reflexivity.
  - reflexivity.
  - vm_compute. reflexivity.
  - vm_compute. reflexivity.
  - reflexivity.
  - vm_compute. reflexivity.
  - intros r' ->%list_elem_of_singleton. split; [|reflexivity].
    apply (bool_decide_unpack _). vm_compute. exact I.
  - exists (Some "?"). vm_compute. reflexivity.
  - apply (bool_decide_unpack _). vm_compute. exact I.
  - cbn [app] in Hrun. rewrite Hrun. vm_compute. reflexivity.
Defined.

(** * Further properties of the driver *)

(** X1: a rating type other than ["obligor"] and ["issuer"] is refused with
    a [ValueError], by the driver before the CSV file is opened and by the
    extractor whatever the document; for the two rating types the driver
    always opens the file. *)
Theorem X1_invalid_rating_type_raises (encodable : list string -> bool)
    (zip_file : list ZipEntry) (root : Element) (rating_type : string)
    (asof : option date) :
  (rating_type ≠ "obligor" -> rating_type ≠ "issuer" ->
     ratings_to_csv encodable zip_file rating_type asof = (None, Raise ValueError)
     /\ xml_to_records root rating_type asof = Raise ValueError)
  /\ (rating_type = "obligor" \/ rating_type = "issuer" ->
        exists rows, (ratings_to_csv encodable zip_file rating_type asof).1 = Some rows).
Proof.
  split.
  - intros Ho Hi. unfold ratings_to_csv, fieldnames_of, xml_to_records.
    by rewrite !bool_decide_eq_false_2 by done.
  - intros Hrt. unfold ratings_to_csv.
    assert (exists fieldnames, fieldnames_of rating_type = Ok fieldnames) as [fn ->].
    { unfold fieldnames_of. destruct Hrt as [-> | ->]; eauto. }
    unfold writerow. destruct (encodable fn); eauto.
Qed.

Section DriverFacts.
Variable encodable : list string -> bool.
Implicit Types (csv_file rows : list (list string)) (fieldnames : list string).

Lemma process_entries_filter fieldnames rating_type asof zip_file : forall csv_file,
process_entries encodable fieldnames rating_type asof csv_file zip_file =
process_entries encodable fieldnames rating_type asof csv_file
  (List.filter is_xml zip_file).
Proof.
induction zip_file as [|entry zip_file IH]; intros csv_file; [done|].
cbn [process_entries List.filter]. unfold is_xml at 1.
destruct (endswith (filename entry) ".xml") eqn:Hxml; cbn [negb]; [|apply IH].
cbn [process_entries]. rewrite Hxml. cbn [negb].
destruct (process_entry _ _ _ _ _ _) as [csv1 [[]|[]]]; try done; apply IH.
Qed.

Lemma writerows_writable fieldnames records : forall csv_file,
Forall (writable encodable fieldnames) records ->
writerows encodable fieldnames csv_file records
= (csv_file ++ (render fieldnames <$> records), Ok ()).
Proof.
induction records as [|r records IH]; intros csv_file Hall; cbn [writerows].
- by rewrite app_nil_r.
- apply Forall_cons in Hall as [[Hdom Henc] Hall].
  rewrite dict_to_list_Ok by done. unfold writerow. rewrite Henc.
  rewrite IH by done. by rewrite fmap_cons, <- app_assoc.
Qed.

Lemma process_entries_clean_xml fieldnames rating_type asof zip_file recss :
Forall (fun entry => is_xml entry = true) zip_file ->
Forall2 (fun entry records => entry_records rating_type asof entry = Ok records)
  zip_file recss ->
Forall (Forall (writable encodable fieldnames)) recss ->
forall csv_file,
process_entries encodable fieldnames rating_type asof csv_file zip_file
= (csv_file ++ rows_of fieldnames recss, Ok ()).
Proof.
intros Hxml Hrecs. revert Hxml.
induction Hrecs as [|entry records zip recss Hentry _ IH];
  intros Hxml Hclean csv_file.
- by rewrite app_nil_r.
- apply Forall_cons in Hclean as [Hrecords Hclean].
  apply Forall_cons in Hxml as [Hentry_xml Hxml].
  cbn [process_entries]. unfold is_xml in Hentry_xml. rewrite Hentry_xml.
  cbn [negb]. unfold process_entry. unfold entry_records in Hentry.
  destruct (parsed entry) as [root|]; [|done]. cbn [bind] in Hentry.
  rewrite Hentry, writerows_writable by done. rewrite IH by done.
  unfold rows_of. cbn [List.map concat]. by rewrite app_assoc.
Qed.

Lemma filter_is_xml zip_file :
Forall (fun entry => is_xml entry = true) (List.filter is_xml zip_file).
Proof.
induction zip_file as [|entry zip_file IH]; [done|]. cbn [List.filter].
destruct (is_xml entry) eqn:Hxml; [by apply Forall_cons|done].
Qed.

Lemma process_entries_clean fieldnames rating_type asof zip_file csv_file recss :
Forall2 (fun entry records => entry_records rating_type asof entry = Ok records)
  (List.filter is_xml zip_file) recss ->
Forall (Forall (writable encodable fieldnames)) recss ->
process_entries encodable fieldnames rating_type asof csv_file zip_file
= (csv_file ++ rows_of fieldnames recss, Ok ()).
Proof.
intros Hrecs Hclean. rewrite process_entries_filter.
by apply process_entries_clean_xml; [apply filter_is_xml| |].
Qed.
End DriverFacts.

(** X2: the driver reads the entries whose name ends in [.xml] and no other:
    a run gives what the run on these entries alone gives.  With no such
    entry, for one of the two rating types, the file holds the header and
    nothing else. *)
Theorem X2_entries_without_xml_suffix_are_skipped
    (encodable : list string -> bool) (zip_file : list ZipEntry)
    (rating_type : string) (asof : option date) :
  ratings_to_csv encodable zip_file rating_type asof
    = ratings_to_csv encodable (List.filter is_xml zip_file) rating_type asof
  /\ forall fieldnames,
       fieldnames_of rating_type = Ok fieldnames ->
       encodable fieldnames = true ->
       List.filter is_xml zip_file = [] ->
       ratings_to_csv encodable zip_file rating_type asof
         = (Some [fieldnames], Ok ()).
Proof.
  assert (Hfilter : ratings_to_csv encodable zip_file rating_type asof
    = ratings_to_csv encodable (List.filter is_xml zip_file) rating_type asof).
  { unfold ratings_to_csv. destruct (fieldnames_of rating_type) as [fn|]; [|done].
    destruct (writerow encodable [] fn) as [csv [[]|]]; [|done].
    by rewrite process_entries_filter. }
  split; [done|]. intros fn Hfn Henc Hnone.
  rewrite Hfilter, Hnone. by rewrite (ratings_to_csv_run _ _ _ _ _ Hfn Henc).
Qed.

(** X3: when every entry read parses and gives records that the writer
    accepts and the file can encode, the run ends normally and the file
    holds the header, then one row for each record, entry after entry in
    the order of the archive and record after record. *)
Theorem X3_clean_run_writes_one_row_per_record
    (encodable : list string -> bool) (zip_file : list ZipEntry)
    (rating_type : string) (asof : option date) (fieldnames : list string)
    (recss : list (list (gmap string (option string)))) :
  fieldnames_of rating_type = Ok fieldnames ->
  encodable fieldnames = true ->
  Forall2 (fun entry records => entry_records rating_type asof entry = Ok records)
    (List.filter is_xml zip_file) recss ->
  Forall (Forall (writable encodable fieldnames)) recss ->
  ratings_to_csv encodable zip_file rating_type asof
    = (Some (fieldnames :: rows_of fieldnames recss), Ok ())
  /\ length (rows_of fieldnames recss) = sum_list (length <$> recss).
Proof.
  intros Hfn Henc Hrecs Hclean. split.
  - rewrite (ratings_to_csv_run _ _ _ _ _ Hfn Henc).
    by rewrite (process_entries_clean _ _ _ _ _ _ recss).
  - unfold rows_of. clear. induction recss as [|records recss IH]; [done|].
    cbn [List.map concat]. rewrite length_app, length_fmap, IH. done.
Qed.

Lemma xml_to_records_attached root rating_type asof records r :
  xml_to_records root rating_type asof = Ok records -> r ∈ records ->
  exists r0, r = attach (findtext root (RATINGS_NAMESPACE +:+ "RAN"))
                        (findtext root (RATINGS_NAMESPACE +:+ "FCD")) r0.
Proof.
  destruct (root_tag_of rating_type) as [root_tag|] eqn:Htag.
  - destruct (find root root_tag) as [element|] eqn:Hfind.
    + rewrite (xml_to_records_found _ _ _ _ _ Htag Hfind).
      destruct (element_to_records _ _) as [flat|]; [|done]. cbn [bind].
      intros [= <-] (r0 & -> & _)%list_elem_of_fmap. eauto.
    + rewrite (xml_to_records_absent _ _ _ _ Htag Hfind).
      by intros [= <-] ?%elem_of_nil.
  - unfold root_tag_of in Htag. unfold xml_to_records.
    by repeat case_bool_decide.
Qed.

(** X4: the header has no name twice, 20 names for obligors and 30 for
    issuers, and every row of the file has as many cells as the header. *)
Theorem X4_rows_have_the_width_of_the_header (encodable : list string -> bool)
    (zip_file : list ZipEntry) (rating_type : string) (asof : option date)
    (fieldnames : list string) (rows : list (list string)) (res : result unit) :
  fieldnames_of rating_type = Ok fieldnames ->
  ratings_to_csv encodable zip_file rating_type asof = (Some rows, res) ->
  NoDup fieldnames
  /\ (rating_type = "obligor" -> length fieldnames = 20)
  /\ (rating_type = "issuer" -> length fieldnames = 30)
  /\ Forall (fun row => length row = length fieldnames) rows.
Proof.
  intros Hfn Hrun. split_and!.
  - unfold fieldnames_of in Hfn.
    repeat case_bool_decide; try done; injection Hfn as <-;
      apply (bool_decide_unpack _); by vm_compute.
  - intros ->. by injection Hfn as <-.
  - intros ->. by injection Hfn as <-.
  - unfold ratings_to_csv in Hrun. rewrite Hfn in Hrun. unfold writerow in Hrun.
    destruct (encodable fieldnames); [|by injection Hrun as <- <-].
    destruct (process_entries _ _ _ _ _ _) as [csv res'] eqn:Hentries.
    apply process_entries_rows in Hentries as (data & -> & Hdata).
    cbn [fst snd] in Hrun. injection Hrun as <- <-.
    apply Forall_cons. split; [done|].
    eapply Forall_impl; [exact Hdata|].
    intros row [r ->]. unfold render. by rewrite length_fmap.
Qed.

(** X5: the driver only appends: the rows of a run stay, in their place,
    when entries are added at the end of the archive, and a run that an
    exception has ended is not changed by them. *)
Theorem X5_rows_are_only_appended (encodable : list string -> bool)
    (zip_file more : list ZipEntry) (rating_type : string) (asof : option date)
    (rows : list (list string)) (res : result unit) :
  ratings_to_csv encodable zip_file rating_type asof = (Some rows, res) ->
  exists rows' res',
    ratings_to_csv encodable (zip_file ++ more) rating_type asof = (Some rows', res')
    /\ rows `prefix_of` rows'
    /\ (forall e, res = Raise e -> rows' = rows /\ res' = Raise e).
Proof.
  unfold ratings_to_csv.
  destruct (fieldnames_of rating_type) as [fn|]; [|done]. unfold writerow.
  destruct (encodable fn).
  - rewrite process_entries_app. cbn [app].
    destruct (process_entries encodable fn rating_type asof [fn] zip_file)
      as [csv1 res1]. cbn [fst snd]. intros [= <- <-].
    destruct res1 as [[]|e1].
    + destruct (process_entries encodable fn rating_type asof csv1 more)
        as [csv2 res2] eqn:Hmore.
      apply process_entries_rows in Hmore as (data & -> & _).
      exists (csv1 ++ data), res2. split_and!; [done|by exists data|done].
    + exists csv1, (Raise e1). split_and!; [done..|]. by intros e [= <-].
  - intros [= <- <-]. exists [], (Raise UnicodeEncodeError).
    split_and!; [done..|]. by intros e [= <-].
Qed.

(** X6: in every row that a document gives, the first two cells are the
    agency name and the file creation date of the document, and empty when
    the document has no such element or the element has no text. *)
Theorem X6_first_cells_are_agency_name_and_creation_date (root : Element)
    (rating_type : string) (asof : option date) (fieldnames : list string)
    (records : list (gmap string (option string)))
    (r : gmap string (option string)) :
  fieldnames_of rating_type = Ok fieldnames ->
  xml_to_records root rating_type asof = Ok records -> r ∈ records ->
  render fieldnames r !! 0
    = Some (default "" (findtext root (RATINGS_NAMESPACE +:+ "RAN")))
  /\ render fieldnames r !! 1
     = Some (default "" (findtext root (RATINGS_NAMESPACE +:+ "FCD"))).
Proof.
  intros Hfn Hrecords Hr.
  destruct (xml_to_records_attached _ _ _ _ _ Hrecords Hr) as [r0 ->].
  destruct (fieldnames_of_type_fields _ _ Hfn) as (type_fields & _ & ->).
  unfold render, attach. cbn [AGENCY_FIELDS app fmap list_fmap fst lookup list_lookup].
  rewrite lookup_insert_ne by done. rewrite !lookup_insert_eq.
  split; f_equal; by destruct (findtext _ _).
Qed.

(** * Further properties of the flattener and of the extractor *)

Lemma substring_whole (s : string) : String.substring 0 (String.length s) s = s.
Proof. induction s as [|c s IH]; [done|]. simpl. f_equal. exact IH. Qed.

Lemma substring_skip (prefix s : string) (m : nat) :
  String.substring (String.length prefix) m (prefix +:+ s) = String.substring 0 m s.
Proof. induction prefix as [|c prefix IH]; [done|]. simpl. exact IH. Qed.

Lemma string_length_app (s1 s2 : string) :
  String.length (s1 +:+ s2) = String.length s1 + String.length s2.
Proof. induction s1 as [|c s1 IH]; [done|]. simpl. f_equal. exact IH. Qed.

Lemma substring_beyond (s : string) (n m : nat) :
  String.length s <= n -> String.substring n m s = "".
Proof.
  revert n. induction s as [|c s IH]; intros n Hn.
  - by destruct n, m.
  - destruct n as [|n]; [cbn in Hn; lia|]. cbn. apply IH. cbn in Hn. lia.
Qed.

(** X7: the key of a leaf is its tag without the first 40 characters, the
    length of the namespace in braces: a tag of the ratings namespace, as
    any tag behind a prefix of 40 characters, gives its local name, and a
    tag of 40 characters or less gives the empty key. *)
Theorem X7_leaf_key_drops_forty_characters (prefix name tg : string) :
  slice_from 40 (RATINGS_NAMESPACE +:+ name) = name
  /\ (String.length prefix = 40 -> slice_from 40 (prefix +:+ name) = name)
  /\ (String.length tg <= 40 -> slice_from 40 tg = "").
Proof.
  assert (Hprefix : forall p, String.length p = 40 -> slice_from 40 (p +:+ name) = name).
  { intros p Hp. unfold slice_from. rewrite string_length_app, Hp.
    replace (40 + String.length name - 40) with (String.length name) by lia.
    rewrite <- Hp at 1. rewrite substring_skip. apply substring_whole. }
  split_and!.
  - by apply Hprefix.
  - apply Hprefix.
  - intros Hlen. unfold slice_from. by apply substring_beyond.
Qed.

Lemma context_leaves_None l : context_leaves None l = visited_list None l.
Proof.
  unfold context_leaves. induction (visited_list None l) as [|e v IH]; [done|].
  cbn [List.filter]. rewrite is_item_None. cbn [negb]. by rewrite IH.
Qed.

Lemma filter_leaf_app (l1 l2 : list Element) :
  List.filter (fun e => bool_decide (length (children e) = 0)) (l1 ++ l2) =
  List.filter (fun e => bool_decide (length (children e) = 0)) l1
  ++ List.filter (fun e => bool_decide (length (children e) = 0)) l2.
Proof. apply List.filter_app. Qed.

Lemma visited_None_leaves e :
  visited None e =
  List.filter (fun x => bool_decide (length (children x) = 0)) (e :: descendants e).
Proof.
  induction e as [tg x cs IH] using Element_forall_ind.
  rewrite visited_unfold, descendants_children. cbn [tag children List.filter].
  rewrite (bool_decide_eq_false_2 (Some tg = None)) by done.
  destruct cs as [|c cs].
  - by rewrite (bool_decide_eq_false_2 (length [] ≠ 0)) by (cbn; lia).
  - rewrite (bool_decide_eq_true_2 (length (c :: cs) ≠ 0)) by done.
    rewrite (bool_decide_eq_false_2 (length (c :: cs) = 0)) by done.
    induction IH as [|c' cs' Hc _ IHcs]; [done|].
    cbn [visited_list descendants_list foldr].
    change (foldr _ [] cs') with (visited_list None cs') at 1.
    change (foldr _ [] cs') with (descendants_list cs').
    change (c' :: descendants c' ++ descendants_list cs')
      with ((c' :: descendants c') ++ descendants_list cs').
    by rewrite filter_leaf_app, Hc, IHcs.
Qed.

Lemma visited_list_None_leaves element :
  visited_list None (children element) = leaf_descendants element.
Proof.
  unfold leaf_descendants. rewrite descendants_children.
  induction (children element) as [|c cs IH]; [done|].
  cbn [visited_list descendants_list foldr].
  change (foldr _ [] cs) with (visited_list None cs) at 1.
  change (foldr _ [] cs) with (descendants_list cs).
  change (c :: descendants c ++ descendants_list cs)
    with ((c :: descendants c) ++ descendants_list cs).
  by rewrite filter_leaf_app, visited_None_leaves, IH.
Qed.

Lemma leaf_fields_dom this l key :
  is_Some (leaf_fields this l !! key) <->
  is_Some (this !! key) \/ exists e, e ∈ l /\ slice_from 40 (tag e) = key.
Proof.
  revert this. induction l as [|e l IH]; intros this.
  - split; [by left|]. by intros [?|(e & ?%elem_of_nil & _)].
  - cbn [leaf_fields foldl]. change (foldl _ ?a l) with (leaf_fields a l).
    rewrite IH, lookup_insert. split.
    + intros [Hins|(e' & Hin & Hkey)].
      * case_decide as Hk; [|by left]. right. exists e. split; [left|done].
      * right. exists e'. split; [by right|done].
    + intros [Hthis|(e' & [->|Hin]%elem_of_cons & Hkey)].
      * left. by case_decide.
      * left. by rewrite decide_True.
      * right. by exists e'.
Qed.

(** X8: when the flattening, without a transformation, of an element that
    is not a sequence container returns, it returns exactly one record,
    whose keys are the keys of the leaves of the whole subtree, items of
    other containers included; an element without children gives one empty
    record. *)
Theorem X8_plain_element_gives_one_record_of_its_leaves (element : Element)
    (out : list (gmap string (option string))) :
  SEQUENCE_TAGS !! tag element = None ->
  element_to_records element None = Ok out ->
  out = [leaf_fields ∅ (leaf_descendants element)]
  /\ (forall r key,
        r ∈ out ->
        (is_Some (r !! key) <->
         exists e, e ∈ leaf_descendants element /\ slice_from 40 (tag e) = key))
  /\ (children element = [] -> out = [∅]).
Proof.
  intros Hseq Hout.
  assert (Hctx : shared_context element = leaf_fields ∅ (leaf_descendants element)).
  { unfold shared_context. by rewrite Hseq, context_leaves_None, visited_list_None_leaves. }
  rewrite element_to_records_plain in Hout by done. injection Hout as <-.
  split_and!.
  - by rewrite Hctx.
  - intros r key ->%list_elem_of_singleton.
    rewrite Hctx, leaf_fields_dom, lookup_empty.
    split; [intros [[? [=]]|?]; done|by right].
  - intros Hnone. unfold shared_context. by rewrite Hnone.
Qed.

(** A container of plain items gives one record for each item. *)
Lemma element_to_records_flat element item :
  SEQUENCE_TAGS !! tag element = Some item -> SEQUENCE_TAGS !! item = None ->
  element_to_records element None =
  Ok ((fun it => record_update (shared_context it) (shared_context element))
        <$> items (Some item) (children element)).
Proof.
  intros Hseq Hitem. rewrite element_to_records_unfold, Hseq, sub_records_plain.
  - unfold finish. rewrite Hseq. cbn [bind fst snd]. by rewrite <- list_fmap_compose.
  - intros it Hit. by rewrite (items_tag _ _ _ Hit).
Qed.

Lemma sub_records_flat item inner its :
  SEQUENCE_TAGS !! item = Some inner -> SEQUENCE_TAGS !! inner = None ->
  (forall it, it ∈ its -> tag it = item) ->
  sub_records None its =
  Ok (concat
        (List.map
           (fun it : Element =>
              (fun rating : Element =>
                 record_update (shared_context rating) (shared_context it))
                <$> items (Some inner) (children it)) its)).
Proof.
  intros Hitem Hinner. induction its as [|it its IH]; intros Hits; [done|].
  cbn [sub_records List.map concat].
  assert (Hit : tag it = item) by (apply Hits; left).
  rewrite (element_to_records_flat it inner) by (by rewrite ?Hit).
  rewrite IH by (intros; apply Hits; by right). done.
Qed.

(** X9: when the flattening, without a transformation, of a container
    whose items are containers of plain items, as the issuer detail with its
    instruments and their ratings, returns, it returns one record for each
    inner item of each item, in document order: the fields of the rating,
    written over by those of its instrument, then by those of the issuer.
    Their number is the sum of the numbers of inner items, so that an item
    without inner items gives none. *)
Theorem X9_nested_containers_give_one_record_per_inner_item (element : Element)
    (item inner : string) (out : list (gmap string (option string))) :
  SEQUENCE_TAGS !! tag element = Some item ->
  SEQUENCE_TAGS !! item = Some inner ->
  SEQUENCE_TAGS !! inner = None ->
  element_to_records element None = Ok out ->
  out = nested_records element item inner
  /\ length out
     = sum_list ((fun it => length (items (Some inner) (children it)))
                   <$> items (Some item) (children element)).
Proof.
  intros Hseq Hitem Hinner Hout.
  assert (Heq : out = nested_records element item inner).
  { rewrite element_to_records_unfold, Hseq in Hout.
    rewrite (sub_records_flat item inner) in Hout by
      (done || (intros it Hit; by apply items_tag in Hit)).
    unfold finish in Hout. rewrite Hseq in Hout. cbn [bind fst snd] in Hout.
    injection Hout as <-. unfold nested_records.
    induction (items (Some item) (children element)) as [|it its IH]; [done|].
    cbn [List.map concat]. rewrite fmap_app, IH. f_equal.
    by rewrite <- list_fmap_compose. }
  split; [done|]. rewrite Heq. unfold nested_records.
  induction (items (Some item) (children element)) as [|it its IH]; [done|].
  cbn [List.map concat]. rewrite length_app, length_fmap, IH. done.
Qed.

(** X10: the extractor flattens the first element, in document order, that
    has the root tag of the rating type and lies below the root of the
    document: the elements of this tag after it give no record, and a root
    that has this tag itself, with no such element below it, gives none. *)
Theorem X10_only_first_root_tag_element_is_flattened (root element : Element)
    (pre post : list Element) (rating_type root_tag : string)
    (asof : option date) :
  root_tag_of rating_type = Some root_tag ->
  (descendants root = pre ++ element :: post ->
   tag element = root_tag ->
   (forall x, x ∈ pre -> tag x ≠ root_tag) ->
   xml_to_records root rating_type asof =
   let* records := element_to_records element (filter_asof <$> asof) in
   Ok (attach (findtext root (RATINGS_NAMESPACE +:+ "RAN"))
              (findtext root (RATINGS_NAMESPACE +:+ "FCD")) <$> records))
  /\ ((forall x, x ∈ descendants root -> tag x ≠ root_tag) ->
      xml_to_records root rating_type asof = Ok []).
Proof.
  intros Htag. split.
  - intros Hdesc Helem Hpre. apply (xml_to_records_found _ _ root_tag); [done|].
    apply find_Some. by exists pre, post.
  - intros Hnone. apply (xml_to_records_absent _ _ root_tag); [done|].
    by apply find_None.
Qed.

(** * Further properties of the as-of filter *)

Lemma dict_set_new {K V : Type} `{EqDecision K} (d : list (K * V)) (k : K) (v : V) :
  k ∉ dict_keys d -> dict_set d k v = d ++ [(k, v)].
Proof.
  unfold dict_keys. induction d as [|[k' v'] d IH]; [done|].
  rewrite fmap_cons, not_elem_of_cons. cbn [fst]. intros [Hne Hnin].
  cbn [dict_set app]. rewrite decide_False by done. by rewrite IH.
Qed.

Lemma dict_get_keys {K V : Type} `{EqDecision K} (d : list (K * V)) (k : K) (v : V) :
  dict_get d k = Some v -> k ∈ dict_keys d.
Proof.
  intros Hget. destruct (decide (k ∈ dict_keys d)) as [|Hnin]; [done|].
  apply dict_get_None in Hnin. congruence.
Qed.

(** A list of records of distinct keys, none after the cutoff, goes into
    [by_type] as it is. *)
Lemma filter_loop_distinct asof records : forall by_type,
  Forall (fun r => exists d, record_rad r = Ok d /\ date_ltb asof d = false) records ->
  NoDup (dict_keys by_type ++ (rating_key <$> records)) ->
  filter_loop asof by_type records
  = Ok (by_type ++ ((fun r => (rating_key r, r)) <$> records)).
Proof.
  induction records as [|r records IH]; intros by_type Hall Hnd.
  - by rewrite app_nil_r.
  - apply Forall_cons in Hall as [(d & Hd & Hle) Hall].
    rewrite fmap_cons in Hnd.
    assert (Hnew : rating_key r ∉ dict_keys by_type).
    { apply NoDup_app in Hnd as (_ & Hdisj & _). intros Hin.
      apply (Hdisj _ Hin). left. }
    cbn [filter_loop]. rewrite Hd. cbn [bind]. rewrite Hle.
    rewrite (proj2 (dict_get_None _ _) Hnew). cbn [bind].
    rewrite dict_set_new by done. rewrite IH; [|done|].
    + by rewrite fmap_cons, <- app_assoc.
    + unfold dict_keys. rewrite fmap_app, <- app_assoc. exact Hnd.
Qed.

(** X11: the as-of filter is idempotent: what it returns, it returns again
    when given its own output, record for record in the same order. *)
Theorem X11_filter_asof_is_idempotent (asof : date)
    (records out : list (gmap string (option string))) (element : Element) :
  tag element ∈ rating_detail_tags ->
  filter_asof asof records element = Ok out ->
  filter_asof asof out element = Ok out.
Proof.
  intros Htag Hout.
  destruct (filter_asof_inv asof records element out Htag Hout) as (by_type & -> & Hinv).
  unfold filter_asof, filter_records. rewrite bool_decide_eq_true_2 by done.
  rewrite filter_loop_distinct.
  - cbn [bind app]. f_equal. unfold dict_values.
    rewrite <- list_fmap_compose. apply list_fmap_id.
  - apply Forall_forall. intros r Hr.
    destruct (by_type_inv_values asof by_type records r Hinv Hr)
      as [_ (d & _ & _ & Hd & Hle & _)]. eauto.
  - cbn [dict_keys fmap list_fmap app].
    rewrite (by_type_inv_keys asof by_type records Hinv). apply Hinv.
Qed.

Lemma not_after_cons_kept asof r records d :
  record_rad r = Ok d -> date_ltb asof d = false ->
  not_after asof (r :: records) = r :: not_after asof records.
Proof. intros Hd Hle. unfold not_after. cbn [List.filter]. by rewrite Hd, Hle. Qed.

Lemma not_after_cons_dropped asof r records d :
  record_rad r = Ok d -> date_ltb asof d = true ->
  not_after asof (r :: records) = not_after asof records.
Proof. intros Hd Hgt. unfold not_after. cbn [List.filter]. by rewrite Hd, Hgt. Qed.

Lemma filter_loop_keys asof records : forall by_type out,
  filter_loop asof by_type records = Ok out ->
  dict_keys out =
  foldl (fun seen k => if decide (k ∈ seen) then seen else seen ++ [k])
    (dict_keys by_type) (rating_key <$> not_after asof records).
Proof.
  induction records as [|r records IH]; intros by_type out.
  - by intros [= <-].
  - cbn [filter_loop]. destruct (record_rad r) as [d|] eqn:Hd; [|done]. cbn [bind].
    destruct (date_ltb asof d) eqn:Hcut.
    + rewrite (not_after_cons_dropped _ _ _ d) by done. apply IH.
    + rewrite (not_after_cons_kept _ _ _ d) by done. rewrite fmap_cons. cbn [foldl].
      destruct (dict_get by_type (rating_key r)) as [old|] eqn:Hget.
      * pose proof (dict_get_keys _ _ _ Hget) as Hin. rewrite decide_True by done.
        destruct (record_rad old) as [old_d|]; [|done]. cbn [bind].
        destruct (date_ltb old_d d); intros Hout; rewrite (IH _ _ Hout); [|done].
        by rewrite dict_keys_set, decide_True.
      * apply dict_get_None in Hget. rewrite decide_False by done.
        cbn [bind]. intros Hout. rewrite (IH _ _ Hout).
        by rewrite dict_keys_set, decide_False.
Qed.

(** X12: the records come out in the order in which their keys are first
    met among the records dated on or before the cutoff, which need not be
    the order of the records kept. *)
Theorem X12_filter_asof_output_in_first_seen_key_order (asof : date)
    (records out : list (gmap string (option string))) (element : Element) :
  tag element ∈ rating_detail_tags ->
  filter_asof asof records element = Ok out ->
  rating_key <$> out = first_seen (rating_key <$> not_after asof records).
Proof.
  intros Htag Hout. unfold filter_asof, filter_records in Hout.
  rewrite bool_decide_eq_true_2 in Hout by done.
  destruct (filter_loop asof [] records) as [by_type|] eqn:Hloop; [|done].
  cbn [bind] in Hout. injection Hout as <-.
  pose proof (filter_loop_Ok _ _ _ _ Hloop) as Hall.
  destruct (filter_loop_spec asof records [] [] (by_type_inv_nil asof) Hall)
    as (bt & Hbt & Hinv).
  assert (bt = by_type) as -> by congruence.
  rewrite (by_type_inv_keys asof by_type records Hinv).
  by rewrite (filter_loop_keys _ _ _ _ Hloop).
Qed.

(** X13: no rating-type group is lost: a key that has a record dated on or
    before the cutoff has exactly one record in the output, and the output
    is empty exactly when every record is dated after the cutoff. *)
Theorem X13_filter_asof_keeps_one_record_of_each_key (asof : date)
    (records out : list (gmap string (option string))) (element : Element) :
  tag element ∈ rating_detail_tags ->
  filter_asof asof records element = Ok out ->
  (forall r d, r ∈ records -> record_rad r = Ok d -> date_ltb asof d = false ->
     group_size (rating_key r) out = 1)
  /\ (out = [] <-> not_after asof records = []).
Proof.
  intros Htag Hout.
  destruct (filter_asof_inv asof records element out Htag Hout) as (by_type & -> & Hinv).
  assert (Hkept : forall r d, r ∈ records -> record_rad r = Ok d ->
            date_ltb asof d = false ->
            exists r', r' ∈ dict_values by_type /\ rating_key r' = rating_key r).
  { intros r d Hr Hd Hle. destruct Hinv as (_ & Hget & Hseen).
    destruct (Hseen r d Hr Hd Hle) as [r' Hr']. exists r'. split.
    - apply list_elem_of_fmap. exists (rating_key r, r').
      split; [done|by apply dict_get_Some].
    - by destruct (Hget _ _ Hr') as [? _]. }
  split.
  - intros r d Hr Hd Hle.
    assert (group_size (rating_key r) (dict_values by_type) <= 1).
    { apply group_size_NoDup. rewrite (by_type_inv_keys asof by_type records Hinv).
      apply Hinv. }
    assert (0 < group_size (rating_key r) (dict_values by_type)); [|lia].
    apply group_size_pos. by apply (Hkept r d).
  - split.
    + intros Hnil. destruct (not_after asof records) as [|r kept] eqn:Hkeep; [done|].
      assert (Hr : r ∈ not_after asof records) by (rewrite Hkeep; left).
      unfold not_after in Hr. apply list_elem_of_In, filter_In in Hr as [Hr Hdate].
      destruct (record_rad r) as [d|] eqn:Hd; [|done].
      destruct (Hkept r d) as (r' & Hr' & _);
        [by apply list_elem_of_In|done|by destruct (date_ltb asof d)|].
      rewrite Hnil in Hr'. by apply elem_of_nil in Hr'.
    + intros Hnone. destruct (dict_values by_type) as [|r out'] eqn:Hvalues; [done|].
      destruct (by_type_inv_values asof by_type records r Hinv) as [_ Hfl];
        [rewrite Hvalues; left|].
      pose proof (first_latest_elem_of _ _ _ Hfl) as Hr.
      destruct Hfl as (d & _ & _ & Hd & Hle & _).
      assert (Hin : r ∈ not_after asof records).
      { unfold not_after. apply list_elem_of_In, filter_In.
        split; [by apply list_elem_of_In|]. by rewrite Hd, Hle. }
      rewrite Hnone in Hin. by apply elem_of_nil in Hin.
Qed.

Lemma record_rad_exn r x :
  record_rad r = Raise x -> x = KeyError \/ x = TypeError \/ x = ValueError.
Proof.
  unfold record_rad. destruct (r !! "RAD") as [[s|]|].
  - unfold date_fromisoformat. intros Hx. right. right.
    repeat match type of Hx with
           | context [match ?t with _ => _ end] => destruct t; try discriminate
           end; congruence.
  - intros [= <-]. auto.
  - intros [= <-]. auto.
Qed.



Lemma filter_asof_exn asof records element x :
  filter_asof asof records element = Raise x ->
  x = KeyError \/ x = TypeError \/ x = ValueError.
Proof.
  unfold filter_asof, filter_records. case_bool_decide; [|done].
  destruct (filter_loop asof [] records) as [by_type|x'] eqn:Hloop; [done|].
  cbn [bind]. intros [= ->]. revert Hloop. generalize (@nil ((option string * option string * option string) * gmap string (option string))).
  induction records as [|r records IH]; intros by_type; [done|].
  cbn [filter_loop]. destruct (record_rad r) as [d|x'] eqn:Hd; cbn [bind].
  - destruct (date_ltb asof d); [apply IH|].
    destruct (dict_get by_type (rating_key r)) as [old|]; cbn [bind]; [|apply IH].
    destruct (record_rad old) as [old_d|x'] eqn:Hold; cbn [bind].
    + destruct (date_ltb old_d d); apply IH.
    + intros [= ->]. by apply (record_rad_exn old).
  - intros [= ->]. by apply (record_rad_exn r).
Qed.

Lemma sub_records_raise t its x :
  sub_records t its = Raise x ->
  exists it, it ∈ its /\ element_to_records it t = Raise x.
Proof.
  induction its as [|it its IH]; [done|]. cbn [sub_records].
  destruct (element_to_records it t) as [subs|x'] eqn:Hit; cbn [bind].
  - destruct (sub_records t its) as [rest|x']; [done|]. cbn [bind].
    intros [= ->]. destruct IH as (it' & Hin & Hraise); [done|].
    exists it'. split; [by right|done].
  - intros [= ->]. exists it. split; [left|done].
Qed.

Lemma items_size st l it : it ∈ items st l -> element_size it <= stack_size l.
Proof.
  unfold items. intros [Hit _]%list_elem_of_In%filter_In.
  by apply (visited_list_size st), list_elem_of_In.
Qed.

(** The flattener raises what the filter raises, nothing else. *)
Lemma element_to_records_exn asof element x :
  element_to_records element (filter_asof <$> asof) = Raise x ->
  x = KeyError \/ x = TypeError \/ x = ValueError.
Proof.
  induction element as [element IH] using (induction_ltof1 _ element_size).
  unfold ltof in IH. rewrite element_to_records_unfold.
  destruct (sub_records _ _) as [subs|x'] eqn:Hsubs; cbn [bind].
  - unfold finish. destruct asof as [asof|]; [|done].
    cbn [fmap option_fmap option_map]. apply filter_asof_exn.
  - intros [= ->]. apply sub_records_raise in Hsubs as (it & Hit & Hraise).
    apply (IH it); [|done]. apply items_size in Hit.
    rewrite (element_size_children element). lia.
Qed.

Lemma xml_to_records_exn root rating_type asof x :
  xml_to_records root rating_type asof = Raise x ->
  x = KeyError \/ x = TypeError \/ x = ValueError.
Proof.
  destruct (root_tag_of rating_type) as [root_tag|] eqn:Htag.
  - destruct (find root root_tag) as [element|] eqn:Hfind.
    + rewrite (xml_to_records_found _ _ _ _ _ Htag Hfind).
      destruct (element_to_records _ _) as [flat|x'] eqn:Hflat; [done|].
      cbn [bind]. intros [= ->]. by apply (element_to_records_exn asof element).
    + by rewrite (xml_to_records_absent _ _ _ _ Htag Hfind).
  - unfold root_tag_of in Htag. unfold xml_to_records.
    repeat case_bool_decide; try done. cbn [bind]. intros [= <-]. auto.
Qed.

(** X15: a failure of the extractor is never swallowed.  The extractor
    raises a [KeyError], a [TypeError] or a [ValueError] only, so that an
    entry whose extraction fails, as a rating without a readable date under
    a cutoff does, ends the run with that exception: the rows written so
    far stay and the later entries are not read. *)
Theorem X15_extraction_failure_ends_the_run (encodable : list string -> bool)
    (before rest : list ZipEntry) (entry : ZipEntry) (rating_type : string)
    (asof : option date) (fieldnames : list string)
    (csv_file : list (list string)) (root : Element) (x : exn) :
  fieldnames_of rating_type = Ok fieldnames ->
  encodable fieldnames = true ->
  process_entries encodable fieldnames rating_type asof [fieldnames] before
    = (csv_file, Ok ()) ->
  endswith (filename entry) ".xml" = true ->
  parsed entry = Ok root ->
  xml_to_records root rating_type asof = Raise x ->
  (x = KeyError \/ x = TypeError \/ x = ValueError)
  /\ ratings_to_csv encodable (before ++ entry :: rest) rating_type asof
     = (Some csv_file, Raise x).
Proof.
  intros Hfn Henc Hbefore Hxml Hparsed Hraise.
  pose proof (xml_to_records_exn _ _ _ _ Hraise) as Hx. split; [done|].
  rewrite (ratings_to_csv_run _ _ _ _ _ Hfn Henc), process_entries_app, Hbefore.
  cbn [process_entries]. rewrite Hxml. cbn [negb].
  unfold process_entry. rewrite Hparsed, Hraise.
  by destruct Hx as [->|[->| ->]].
Qed.

(** * The cutoff at the level of a document *)

Lemma filter_asof_length asof records element out :
  filter_asof asof records element = Ok out -> length out <= length records.
Proof.
  destruct (decide (tag element ∈ rating_detail_tags)) as [Htag|Htag].
  - intros Hout.
    destruct (filter_asof_inv asof records element out Htag Hout)
      as (by_type & -> & Hinv).
    rewrite <- (length_fmap rating_key (dict_values by_type)).
    rewrite <- (length_fmap rating_key records).
    apply submseteq_length, NoDup_submseteq.
    + rewrite (by_type_inv_keys asof by_type records Hinv). apply Hinv.
    + intros k (r & -> & Hr)%list_elem_of_fmap. apply list_elem_of_fmap.
      exists r. split; [done|].
      eapply first_latest_elem_of, by_type_inv_values; done.
  - unfold filter_asof, filter_records. rewrite bool_decide_eq_false_2 by done.
    by intros [= <-].
Qed.

(** With a cutoff an element gives no more records than without, and no
    record that it does not give without. *)
Lemma element_to_records_filter_fewer asof element out :
  element_to_records element (Some (filter_asof asof)) = Ok out ->
  exists out0,
    element_to_records element None = Ok out0
    /\ length out <= length out0 /\ forall r, r ∈ out -> r ∈ out0.
Proof.
  revert out.
  induction element as [element IH] using (induction_ltof1 _ element_size).
  unfold ltof in IH. intros out. rewrite !element_to_records_unfold.
  assert (Hsubs : forall its subs,
    (forall it, it ∈ its -> element_size it < element_size element) ->
    sub_records (Some (filter_asof asof)) its = Ok subs ->
    exists subs0, sub_records None its = Ok subs0
      /\ length subs <= length subs0 /\ forall r, r ∈ subs -> r ∈ subs0).
  { induction its as [|it its IHits]; intros subs Hlt.
    - intros [= <-]. by exists [].
    - cbn [sub_records].
      destruct (element_to_records it _) as [s1|] eqn:Hs1; [|done]. cbn [bind].
      destruct (sub_records (Some _) its) as [s2|] eqn:Hs2; [|done]. cbn [bind].
      intros [= <-].
      destruct (IH it (Hlt it ltac:(left)) s1 Hs1) as (t1 & -> & Hlen1 & Hin1).
      destruct (IHits s2) as (t2 & -> & Hlen2 & Hin2);
        [intros; apply Hlt; by right|done|].
      exists (t1 ++ t2). cbn [bind]. split_and!; [done| |].
      + rewrite !length_app. lia.
      + intros r [?|?]%elem_of_app; apply elem_of_app; auto. }
  destruct (sub_records (Some _) _) as [subs|] eqn:Hs; [|done]. cbn [bind].
  destruct (Hsubs (items (SEQUENCE_TAGS !! tag element) (children element)) subs)
    as (subs0 & -> & Hlen & Hin); [|done|].
  { intros it Hit. apply items_size in Hit.
    rewrite (element_size_children element). lia. }
  cbn [bind]. unfold finish. cbn [fst snd]. intros Hout.
  pose proof (filter_asof_length _ _ _ _ Hout) as Hlen'.
  pose proof (fun r => filter_asof_subset _ _ _ _ r Hout) as Hin'.
  destruct (SEQUENCE_TAGS !! tag element).
  - eexists. split; [done|]. rewrite length_fmap in *. split; [lia|].
    intros r (sub & -> & Hsub)%Hin'%list_elem_of_fmap.
    apply list_elem_of_fmap. exists sub. auto.
  - eexists. split; [done|]. auto.
Qed.

(** X16: a cutoff never adds: for every document and rating type, the
    records of the extraction with a cutoff are no more than those of the
    extraction without, and each of them is one of those. *)
Theorem X16_cutoff_never_adds_records (root : Element) (rating_type : string)
    (asof : date) (out : list (gmap string (option string))) :
  xml_to_records root rating_type (Some asof) = Ok out ->
  exists out0,
    xml_to_records root rating_type None = Ok out0
    /\ length out <= length out0 /\ forall r, r ∈ out -> r ∈ out0.
Proof.
  destruct (root_tag_of rating_type) as [root_tag|] eqn:Htag.
  - destruct (find root root_tag) as [element|] eqn:Hfind.
    + rewrite !(xml_to_records_found _ _ _ _ _ Htag Hfind).
      cbn [fmap option_fmap option_map].
      destruct (element_to_records element (Some _)) as [flat|] eqn:Hflat; [|done].
      cbn [bind]. intros [= <-].
      destruct (element_to_records_filter_fewer _ _ _ Hflat)
        as (flat0 & -> & Hlen & Hin).
      cbn [bind]. eexists. split; [done|]. rewrite !length_fmap. split; [done|].
      intros r (r0 & -> & Hr0)%list_elem_of_fmap. apply list_elem_of_fmap.
      exists r0. auto.
    + rewrite !(xml_to_records_absent _ _ _ _ Htag Hfind). intros [= <-].
      by exists [].
  - unfold root_tag_of in Htag. unfold xml_to_records.
    by repeat case_bool_decide.
Qed.

(** X17: for obligors the cutoff applies to the records of the whole
    obligor detail: the extraction with a cutoff is the extraction without,
    filtered, and so it gives at most one record for each (rating type,
    subtype, term) key, none dated after the cutoff. *)
Theorem X17_obligor_document_has_one_record_per_key (root element : Element)
    (asof : date) (out : list (gmap string (option string))) :
  find root (RATINGS_NAMESPACE +:+ "OD") = Some element ->
  xml_to_records root "obligor" (Some asof) = Ok out ->
  (exists flat kept,
     element_to_records element None = Ok flat
     /\ filter_asof asof flat element = Ok kept
     /\ out = attach (findtext root (RATINGS_NAMESPACE +:+ "RAN"))
                     (findtext root (RATINGS_NAMESPACE +:+ "FCD")) <$> kept)
  /\ NoDup (rating_key <$> out)
  /\ (forall r, r ∈ out ->
        exists d, record_rad r = Ok d /\ date_ltb asof d = false).
Proof.
  intros Hfind.
  assert (Htag : tag element ∈ rating_detail_tags).
  { apply find_Some in Hfind as (_ & _ & _ & -> & _). left. }
  rewrite (xml_to_records_found _ "obligor" (RATINGS_NAMESPACE +:+ "OD") _ _
             eq_refl Hfind).
  cbn [fmap option_fmap option_map].
  rewrite (element_to_records_filter_at_detail _ _ Htag).
  destruct (element_to_records element None) as [flat|]; [|done]. cbn [bind].
  destruct (filter_asof asof flat element) as [kept|] eqn:Hkept; [|done].
  cbn [bind]. intros [= <-].
  destruct (filter_asof_inv asof flat element kept Htag Hkept)
    as (by_type & -> & Hinv).
  split_and!.
  - by exists flat, (dict_values by_type).
  - rewrite <- list_fmap_compose.
    rewrite (list_fmap_ext _ rating_key (dict_values by_type))
      by (intros; apply rating_key_attach).
    rewrite (by_type_inv_keys asof by_type flat Hinv). apply Hinv.
  - intros r (r0 & -> & Hr0)%list_elem_of_fmap. rewrite record_rad_attach.
    destruct (by_type_inv_values asof by_type flat r0 Hinv Hr0)
      as [_ (d & _ & _ & Hd & Hle & _)]. eauto.
Qed.

(** X18: for issuers the cutoff applies instrument by instrument: the
    issuer detail hands the records of its instruments on as they are, each
    instrument's records being those of the instrument without cutoff,
    filtered.  A key can so occur once for each instrument. *)
Theorem X18_issuer_cutoff_applies_per_instrument (element : Element)
    (asof : date) :
  tag element = RATINGS_NAMESPACE +:+ "ISD" ->
  element_to_records element (Some (filter_asof asof)) =
    (let* subs := sub_records (Some (filter_asof asof))
                    (items (Some (RATINGS_NAMESPACE +:+ "IND")) (children element)) in
     Ok ((fun sub => record_update sub (shared_context element)) <$> subs))
  /\ forall instrument,
       instrument ∈ items (Some (RATINGS_NAMESPACE +:+ "IND")) (children element) ->
       element_to_records instrument (Some (filter_asof asof)) =
       let* flat := element_to_records instrument None in
       filter_asof asof flat instrument.
Proof.
  intros Htag. split.
  - rewrite element_to_records_unfold, Htag.
    change (SEQUENCE_TAGS !! (RATINGS_NAMESPACE +:+ "ISD"))
      with (Some (RATINGS_NAMESPACE +:+ "IND")).
    destruct (sub_records _ _) as [subs|]; [|done]. cbn [bind].
    unfold finish. rewrite Htag.
    change (SEQUENCE_TAGS !! (RATINGS_NAMESPACE +:+ "ISD"))
      with (Some (RATINGS_NAMESPACE +:+ "IND")).
    unfold filter_asof, filter_records. rewrite Htag.
    by rewrite bool_decide_eq_false_2 by (apply (bool_decide_unpack _); by vm_compute).
  - intros instrument Hin. apply items_tag in Hin.
    apply element_to_records_filter_at_detail. rewrite Hin. right. left.
Qed.

(** * The further properties on sample documents *)

(** A rating type that the program does not know. *)
Lemma X1_witness :
  ratings_to_csv all_encodable [mkZipEntry "a.xml" (Ok sample_root)] "sovereign" None
    = (None, Raise ValueError)
  /\ xml_to_records sample_root "sovereign" None = Raise ValueError.
Proof.
  apply (X1_invalid_rating_type_raises all_encodable
           [mkZipEntry "a.xml" (Ok sample_root)] sample_root "sovereign" None);
    discriminate.
Defined.

(** An archive with a text file only. *)
Lemma X2_witness :
  ratings_to_csv all_encodable [mkZipEntry "readme.txt" (Raise ParseError)]
    "obligor" None
  = (Some [dict_keys (dict_or (dict_or AGENCY_FIELDS OBLIGOR_FIELDS) RATING_FIELDS)],
     Ok ()).
Proof.
  apply (X2_entries_without_xml_suffix_are_skipped all_encodable
           [mkZipEntry "readme.txt" (Raise ParseError)] "obligor" None);
    reflexivity.
Defined.

(** Two documents and a text file between them: three rows after the
    header. *)
Lemma X3_witness :
  ratings_to_csv all_encodable
    [mkZipEntry "a.xml" (Ok sample_root); mkZipEntry "readme.txt" (Raise ParseError);
     mkZipEntry "b.xml" (Ok two_od_root)] "obligor" None
  = (Some (dict_keys (dict_or (dict_or AGENCY_FIELDS OBLIGOR_FIELDS) RATING_FIELDS)
           :: rows_of
                (dict_keys (dict_or (dict_or AGENCY_FIELDS OBLIGOR_FIELDS) RATING_FIELDS))
                [ [ record_of [("RAN", Some "ACME Ratings"); ("FCD", Some "2023-01-01");
                               ("OBNAME", Some "Obligor Inc"); ("R", Some "BBB");
                               ("RAD", Some "2022-06-01"); ("RT", Some "LT")];
                    record_of [("RAN", Some "ACME Ratings"); ("FCD", Some "2023-01-01");
                               ("OBNAME", Some "Obligor Inc"); ("R", Some "A");
                               ("RAD", Some "2023-06-01"); ("RT", Some "LT")] ];
                  [ record_of [("RAN", Some "ACME Ratings"); ("FCD", None);
                               ("OBNAME", Some "First"); ("R", Some "A");
                               ("RAD", Some "2023-06-01"); ("RT", Some "LT")] ] ]),
     Ok ()).
Proof.
  apply (X3_clean_run_writes_one_row_per_record all_encodable
           [mkZipEntry "a.xml" (Ok sample_root);
            mkZipEntry "readme.txt" (Raise ParseError);
            mkZipEntry "b.xml" (Ok two_od_root)] "obligor" None).
  - reflexivity.
  - reflexivity.
  - repeat apply Forall2_cons_2; [vm_compute; reflexivity..|apply Forall2_nil_2].
  - repeat (apply Forall_cons_2 || apply Forall_nil_2);
      (split; [apply (bool_decide_unpack _); vm_compute; exact I|reflexivity]).
Defined.

(** The three rows of the run on [sample_root] have 20 cells each. *)
Lemma X4_witness :
  Forall (fun row : list string => length row = 20)
    (default [] (ratings_to_csv all_encodable [mkZipEntry "a.xml" (Ok sample_root)]
                   "obligor" None).1).
Proof.
  destruct (X4_rows_have_the_width_of_the_header all_encodable
    [mkZipEntry "a.xml" (Ok sample_root)] "obligor" None
    (dict_keys (dict_or (dict_or AGENCY_FIELDS OBLIGOR_FIELDS) RATING_FIELDS))
    (default [] (ratings_to_csv all_encodable [mkZipEntry "a.xml" (Ok sample_root)]
                   "obligor" None).1)
    (ratings_to_csv all_encodable [mkZipEntry "a.xml" (Ok sample_root)]
       "obligor" None).2) as (_ & _ & _ & Hrows).
  - reflexivity.
  - vm_compute. reflexivity.
  - exact Hrows.
Defined.

(** The header and the two rows of [sample_root] stay when a second entry
    is added. *)
Lemma X5_witness :
  exists rows' res',
    ratings_to_csv all_encodable
      ([mkZipEntry "a.xml" (Ok sample_root)] ++ [mkZipEntry "b.xml" (Ok two_od_root)])
      "obligor" None = (Some rows', res')
    /\ default [] (ratings_to_csv all_encodable [mkZipEntry "a.xml" (Ok sample_root)]
                     "obligor" None).1 `prefix_of` rows'.
Proof.
  destruct (X5_rows_are_only_appended all_encodable
    [mkZipEntry "a.xml" (Ok sample_root)] [mkZipEntry "b.xml" (Ok two_od_root)]
    "obligor" None
    (default [] (ratings_to_csv all_encodable [mkZipEntry "a.xml" (Ok sample_root)]
                   "obligor" None).1)
    (ratings_to_csv all_encodable [mkZipEntry "a.xml" (Ok sample_root)]
       "obligor" None).2) as (rows' & res' & Hrun & Hprefix & _).
  - vm_compute. reflexivity.
  - exists rows', res'. split; [exact Hrun|exact Hprefix].
Defined.

(** The first cells of the row of [two_od_root], which has an agency name
    and no file creation date. *)
Lemma X6_witness :
  render (dict_keys (dict_or (dict_or AGENCY_FIELDS OBLIGOR_FIELDS) RATING_FIELDS))
    (record_of [("RAN", Some "ACME Ratings"); ("FCD", None);
                ("OBNAME", Some "First"); ("R", Some "A");
                ("RAD", Some "2023-06-01"); ("RT", Some "LT")]) !! 0
  = Some (default "" (findtext two_od_root (RATINGS_NAMESPACE +:+ "RAN")))
  /\ render (dict_keys (dict_or (dict_or AGENCY_FIELDS OBLIGOR_FIELDS) RATING_FIELDS))
       (record_of [("RAN", Some "ACME Ratings"); ("FCD", None);
                   ("OBNAME", Some "First"); ("R", Some "A");
                   ("RAD", Some "2023-06-01"); ("RT", Some "LT")]) !! 1
     = Some (default "" (findtext two_od_root (RATINGS_NAMESPACE +:+ "FCD"))).
Proof.
  apply (X6_first_cells_are_agency_name_and_creation_date two_od_root "obligor" None
           (dict_keys (dict_or (dict_or AGENCY_FIELDS OBLIGOR_FIELDS) RATING_FIELDS))
           [record_of [("RAN", Some "ACME Ratings"); ("FCD", None);
                       ("OBNAME", Some "First"); ("R", Some "A");
                       ("RAD", Some "2023-06-01"); ("RT", Some "LT")]]).
  - reflexivity.
  - vm_compute. reflexivity.
  - left.
Defined.

(** A tag of another namespace of the same length, and a tag without
    namespace. *)
Lemma X7_witness :
  slice_from 40 ("{http://xbrl.sec.gov/ratings/2099-12-31}" +:+ "RAD") = "RAD"
  /\ slice_from 40 "RAD" = "".
Proof.
  destruct (X7_leaf_key_drops_forty_characters
              "{http://xbrl.sec.gov/ratings/2099-12-31}" "RAD" "RAD")
    as (_ & Hprefix & Hshort).
  split; [apply Hprefix; reflexivity|apply Hshort; vm_compute; lia].
Defined.

(** A rating on its own gives one record of its three leaves. *)
Lemma X8_witness :
  [record_of [("R", Some "A"); ("RAD", Some "2023-06-01"); ("RT", Some "LT")]]
  = [leaf_fields ∅ (leaf_descendants (sample_ord "A" "2023-06-01"))].
Proof.
  destruct (X8_plain_element_gives_one_record_of_its_leaves
              (sample_ord "A" "2023-06-01")
              [record_of [("R", Some "A"); ("RAD", Some "2023-06-01"); ("RT", Some "LT")]])
    as [Hout _]; [vm_compute; reflexivity..|].
  exact Hout.
Defined.

(** The issuer of [sample_isd] gives the two records of its first
    instrument, and none for the second. *)
Lemma X9_witness :
  [ record_of [("ISSNAME", Some "Issuer SA"); ("CUSIP", Some "123456789");
               ("R", Some "AA"); ("RAD", Some "2020-05-05")];
    record_of [("ISSNAME", Some "Issuer SA"); ("CUSIP", Some "123456789");
               ("R", Some "A"); ("RAD", Some "2021-05-05")] ]
  = nested_records sample_isd (qname "IND") (qname "IRD").
Proof.
  destruct (X9_nested_containers_give_one_record_per_inner_item sample_isd
              (qname "IND") (qname "IRD")
              [ record_of [("ISSNAME", Some "Issuer SA"); ("CUSIP", Some "123456789");
                           ("R", Some "AA"); ("RAD", Some "2020-05-05")];
                record_of [("ISSNAME", Some "Issuer SA"); ("CUSIP", Some "123456789");
                           ("R", Some "A"); ("RAD", Some "2021-05-05")] ])
    as [Hrecords _]; [vm_compute; reflexivity..|].
  exact Hrecords.
Defined.

(** Of the two obligors of [two_od_root] the first is flattened. *)
Lemma X10_witness :
  xml_to_records two_od_root "obligor" None
  = Ok [record_of [("RAN", Some "ACME Ratings"); ("FCD", None);
                   ("OBNAME", Some "First"); ("R", Some "A");
                   ("RAD", Some "2023-06-01"); ("RT", Some "LT")]].
Proof.
  destruct (X10_only_first_root_tag_element_is_flattened two_od_root
    (Elem (qname "OD") None [leaf "OBNAME" "First"; sample_ord "A" "2023-06-01"])
    [leaf "RAN" "ACME Ratings"] (drop 2 (descendants two_od_root))
    "obligor" (qname "OD") None) as [Hfirst _]; [reflexivity|].
  rewrite Hfirst.
  - vm_compute. reflexivity.
  - vm_compute. reflexivity.
  - reflexivity.
  - intros x ->%list_elem_of_singleton. vm_compute. discriminate.
Defined.

(** The filter as of the end of 2022 on three records, and again on its
    output. *)
Lemma X11_witness :
  filter_asof (mkdate 2022 12 31)
    [ record_of [("R", Some "B"); ("RAD", Some "2021-01-01"); ("RT", Some "ST")];
      record_of [("R", Some "BBB"); ("RAD", Some "2022-06-01")] ]
    sample_od
  = Ok [ record_of [("R", Some "B"); ("RAD", Some "2021-01-01"); ("RT", Some "ST")];
         record_of [("R", Some "BBB"); ("RAD", Some "2022-06-01")] ].
Proof.
  apply (X11_filter_asof_is_idempotent (mkdate 2022 12 31)
    [ record_of [("R", Some "C"); ("RAD", Some "2020-01-01"); ("RT", Some "ST")];
      record_of [("R", Some "BBB"); ("RAD", Some "2022-06-01")];
      record_of [("R", Some "A"); ("RAD", Some "2023-06-01")];
      record_of [("R", Some "B"); ("RAD", Some "2021-01-01"); ("RT", Some "ST")] ]).
  - vm_compute. left.
  - vm_compute. reflexivity.
Defined.

(** The key [ST] is met first: its record, the fourth of the input, comes
    out before the second. *)
Lemma X12_witness :
  rating_key <$>
    [ record_of [("R", Some "B"); ("RAD", Some "2021-01-01"); ("RT", Some "ST")];
      record_of [("R", Some "BBB"); ("RAD", Some "2022-06-01")] ]
  = first_seen (rating_key <$> not_after (mkdate 2022 12 31)
    [ record_of [("R", Some "C"); ("RAD", Some "2020-01-01"); ("RT", Some "ST")];
      record_of [("R", Some "BBB"); ("RAD", Some "2022-06-01")];
      record_of [("R", Some "A"); ("RAD", Some "2023-06-01")];
      record_of [("R", Some "B"); ("RAD", Some "2021-01-01"); ("RT", Some "ST")] ]).
Proof.
  apply (X12_filter_asof_output_in_first_seen_key_order (mkdate 2022 12 31) _ _
           sample_od).
  - vm_compute. left.
  - vm_compute. reflexivity.
Defined.

(** Every record of [sample_od] is after the cutoff of 2000: nothing comes
    out. *)
Lemma X13_witness :
  ([] : list (gmap string (option string))) = [] <->
  not_after (mkdate 2000 1 1)
    [ record_of [("R", Some "BBB"); ("RAD", Some "2022-06-01")];
      record_of [("R", Some "A"); ("RAD", Some "2023-06-01")] ] = [].
Proof.
  apply (X13_filter_asof_keeps_one_record_of_each_key (mkdate 2000 1 1) _ _ sample_od).
  - vm_compute. left.
  - vm_compute. reflexivity.
Defined.


(** The rating of [undated_root] has no date: with a cutoff the run ends
    on it, after the rows of the entry before it. *)
Lemma X15_witness :
  ratings_to_csv all_encodable
    ([mkZipEntry "a.xml" (Ok sample_root)]
     ++ mkZipEntry "b.xml" (Ok undated_root) :: [mkZipEntry "c.xml" (Ok sample_root)])
    "obligor" (Some (mkdate 2023 12 31))
  = (Some (process_entries all_encodable
             (dict_keys (dict_or (dict_or AGENCY_FIELDS OBLIGOR_FIELDS) RATING_FIELDS))
             "obligor" (Some (mkdate 2023 12 31))
             [dict_keys (dict_or (dict_or AGENCY_FIELDS OBLIGOR_FIELDS) RATING_FIELDS)]
             [mkZipEntry "a.xml" (Ok sample_root)]).1,
     Raise KeyError).
Proof.
  apply (X15_extraction_failure_ends_the_run all_encodable
    [mkZipEntry "a.xml" (Ok sample_root)] [mkZipEntry "c.xml" (Ok sample_root)]
    (mkZipEntry "b.xml" (Ok undated_root)) "obligor" (Some (mkdate 2023 12 31))
    (dict_keys (dict_or (dict_or AGENCY_FIELDS OBLIGOR_FIELDS) RATING_FIELDS))
    _ undated_root KeyError).
  - reflexivity.
  - reflexivity.
  - vm_compute. reflexivity.
  - reflexivity.
  - reflexivity.
  - vm_compute. reflexivity.
Defined.

(** [sample_root] as of the end of 2022 gives one of its two records. *)
Lemma X16_witness :
  exists out0,
    xml_to_records sample_root "obligor" None = Ok out0
    /\ length [record_of [("RAN", Some "ACME Ratings"); ("FCD", Some "2023-01-01");
                          ("OBNAME", Some "Obligor Inc"); ("R", Some "BBB");
                          ("RAD", Some "2022-06-01"); ("RT", Some "LT")]]
       <= length out0.
Proof.
  destruct (X16_cutoff_never_adds_records sample_root "obligor" (mkdate 2022 12 31)
    [record_of [("RAN", Some "ACME Ratings"); ("FCD", Some "2023-01-01");
                ("OBNAME", Some "Obligor Inc"); ("R", Some "BBB");
                ("RAD", Some "2022-06-01"); ("RT", Some "LT")]])
    as (out0 & Hout0 & Hlen & _).
  - vm_compute. reflexivity.
  - exists out0. split; [exact Hout0|exact Hlen].
Defined.

(** [sample_root] as of the end of 2023 gives one record for its one key. *)
Lemma X17_witness :
  NoDup (rating_key <$>
    [record_of [("RAN", Some "ACME Ratings"); ("FCD", Some "2023-01-01");
                ("OBNAME", Some "Obligor Inc"); ("R", Some "A");
                ("RAD", Some "2023-06-01"); ("RT", Some "LT")]]).
Proof.
  destruct (X17_obligor_document_has_one_record_per_key sample_root sample_od
    (mkdate 2023 12 31)
    [record_of [("RAN", Some "ACME Ratings"); ("FCD", Some "2023-01-01");
                ("OBNAME", Some "Obligor Inc"); ("R", Some "A");
                ("RAD", Some "2023-06-01"); ("RT", Some "LT")]])
    as (_ & Hkeys & _).
  - vm_compute. reflexivity.
  - vm_compute. reflexivity.
  - exact Hkeys.
Defined.

(** The two instruments of [two_ind_isd] as of 2020: each keeps its own
    latest rating, of one same key. *)
Lemma X18_witness :
  element_to_records two_ind_isd (Some (filter_asof (mkdate 2020 12 31)))
  = Ok [ record_of [("ISSNAME", Some "Issuer SA"); ("CUSIP", Some "111");
                    ("R", Some "AA"); ("RAD", Some "2020-05-05")];
         record_of [("ISSNAME", Some "Issuer SA"); ("CUSIP", Some "222");
                    ("R", Some "B"); ("RAD", Some "2019-01-01")] ].
Proof.
  destruct (X18_issuer_cutoff_applies_per_instrument two_ind_isd (mkdate 2020 12 31))
    as [Hisd _]; [reflexivity|].
  rewrite Hisd. vm_compute. reflexivity.
Defined.
